(** * easy-rcon: the RCON packet codec and the session state machine

    A shallow embedding of [src/index.js].  The first part follows the four
    codec helpers ([getPayload], [getId], [getType], [createPacket]) over a
    model of the node [Buffer] operations they call.  The second part follows
    the closure returned by [RCON()]: its eight captured variables, the four
    socket listeners and the three public operations, over a store of
    promises and a log of the calls made on each socket. *)

From Stdlib Require Import ZArith Lia String Ascii.
From stdpp Require Import base numbers list option.

Local Open Scope Z_scope.

(** ** Completions

    A JavaScript call either returns a value or throws.  Only two classes of
    exception can arise in this code: a [TypeError] (calling or reading a
    property of [null]) and a [RangeError] (a Buffer read or write that is
    out of range). *)

Inductive exn : Type := TypeError | RangeError.

Inductive completion (A : Type) : Type :=
  | Normal (a : A)
  | Throw (e : exn).
Arguments Normal {A} a.
Arguments Throw {A} e.

#[global] Instance completion_ret : MRet completion := fun A a => Normal a.
#[global] Instance completion_bind : MBind completion := fun A B f m =>
  match m with
  | Normal a => f a
  | Throw e => Throw e
  end.

(** ** Strings and buffers

    A JavaScript string is a sequence of UTF-16 code units; a [Buffer] is a
    sequence of bytes.  Both are lists of integers here, and every operation
    that stores into a buffer writes out the truncation it performs. *)

Definition jsstring : Type := list Z.
Definition Buffer : Type := list Z.

(** A string literal of the source, as its code units. *)
Definition str (s : string) : jsstring :=
  (fun a => Z.of_N (N_of_ascii a)) <$> list_ascii_of_string s.

Definition is_ascii (s : jsstring) : Prop := Forall (fun c => 0 <= c < 128) s.
Definition is_bytes (b : Buffer) : Prop := Forall (fun x => 0 <= x < 256) b.

Definition byteLength (b : Buffer) : Z := Z.of_nat (length b).

(** [Buffer.alloc(size, fill)] *)
Definition alloc (size : nat) (fill : Z) : Buffer := replicate size fill.

(** [Buffer.from(s, 'ascii')]: on encoding, 'ascii' is 'latin1'; each code
    unit is cut to its low byte. *)
Definition from_ascii (s : jsstring) : Buffer := (fun c => Z.land c 255) <$> s.

(** [buf.toString('ascii')]: the high bit of every byte is cleared. *)
Definition toString_ascii (b : Buffer) : jsstring := (fun x => Z.land x 127) <$> b.

(** [Buffer.concat(list)] *)
Definition concat (l : list Buffer) : Buffer := mjoin l.

(** [adjustOffset] of node's lib/buffer.js, used by [subarray]: a negative
    offset counts from the end, and the result is clamped to [0, length]. *)
Definition adjustOffset (offset len : Z) : Z :=
  if offset =? 0 then 0
  else if offset <? 0 then (if 0 <? offset + len then offset + len else 0)
  else if offset <? len then offset
  else len.

(** [buf.subarray(start, end)] *)
Definition subarray (b : Buffer) (start end_ : Z) : Buffer :=
  let srcLength := byteLength b in
  let start := adjustOffset start srcLength in
  let end_ := adjustOffset end_ srcLength in
  let newLength := if start <? end_ then end_ - start else 0 in
  take (Z.to_nat newLength) (drop (Z.to_nat start) b).

(** ToInt32 of ECMAScript, the result type of [<<]. *)
Definition toInt32 (x : Z) : Z := (x + 2147483648) mod 4294967296 - 2147483648.

(** [buf.readInt32LE()] at offset 0: throws unless bytes 0 and 3 exist. *)
Definition readInt32LE (b : Buffer) : completion Z :=
  match b with
  | first :: b1 :: b2 :: last :: _ =>
      Normal (first + b1 * 2 ^ 8 + b2 * 2 ^ 16 + toInt32 (Z.shiftl last 24))
  | _ => Throw RangeError
  end.

Definition int32_min : Z := -2147483648.
Definition int32_max : Z := 2147483647.

(** What storing [value] into one element of a byte array keeps. *)
Definition toUint8 (value : Z) : Z := Z.land value 255.

(** [buf.writeInt32LE(value)] at offset 0: throws when [value] is not an
    int32 or when the buffer has fewer than four bytes; otherwise stores
    the four bytes of the two's complement representation, low byte first.
    The buffer after the write is returned. *)
Definition writeInt32LE (b : Buffer) (value : Z) : completion Buffer :=
  if (int32_max <? value) || (value <? int32_min) then Throw RangeError
  else match b with
       | _ :: _ :: _ :: _ :: rest =>
           Normal (toUint8 value
                   :: toUint8 (Z.shiftr value 8)
                   :: toUint8 (Z.shiftr value 16)
                   :: toUint8 (Z.shiftr value 24)
                   :: rest)
       | _ => Throw RangeError
       end.

(** ** The codec of index.js *)

Definition packetId : Z := 1337.

Record packet_types : Type := {
  AUTH : Z;
  AUTH_RESPONSE : Z;
  EXEC_COMMAND : Z;
  RESPONSE_VALUE : Z
}.

Definition PACKET_TYPE : packet_types :=
  {| AUTH := 3; AUTH_RESPONSE := 2; EXEC_COMMAND := 2; RESPONSE_VALUE := 0 |}.

(** The values of the enum. *)
Definition defined_type (t : Z) : Prop :=
  t ∈ [AUTH PACKET_TYPE; AUTH_RESPONSE PACKET_TYPE;
       EXEC_COMMAND PACKET_TYPE; RESPONSE_VALUE PACKET_TYPE].

Definition getPayload (buffer : Buffer) : completion jsstring :=
  size ← readInt32LE (subarray buffer 0 4);
  mret (toString_ascii (subarray buffer 12 (12 + (size - 10)))).

Definition getId (buffer : Buffer) : completion Z :=
  readInt32LE (subarray buffer 4 8).

Definition getType (buffer : Buffer) : completion Z :=
  readInt32LE (subarray buffer 8 12).

Definition createPacket (type : Z) (payload : jsstring) : completion Buffer :=
  let nullBuffer := alloc 1 0 in
  let sizeBuffer := alloc 4 0 in
  let idBuffer := alloc 4 0 in
  idBuffer ← writeInt32LE idBuffer packetId;
  let typeBuffer := alloc 4 0 in
  typeBuffer ← writeInt32LE typeBuffer type;
  let payloadBuffer := from_ascii payload in
  let commandBuffer :=
    concat [idBuffer; typeBuffer; payloadBuffer; nullBuffer; nullBuffer] in
  sizeBuffer ← writeInt32LE sizeBuffer (byteLength commandBuffer);
  mret (concat [sizeBuffer; commandBuffer]).

(** The body of every packet is [id], [type], payload and two nulls; its
    length is written into an int32, which bounds the payload.  Every string
    node can build satisfies the bound: V8 caps the length of a string far
    below [2^31]. *)
Definition fits_packet (payload : jsstring) : Prop :=
  10 + Z.of_nat (length payload) <= int32_max.

Definition is_int32 (v : Z) : Prop := int32_min <= v <= int32_max.

(** The four bytes [writeInt32LE] stores. *)
Definition le32 (v : Z) : Buffer :=
  [toUint8 v; toUint8 (Z.shiftr v 8); toUint8 (Z.shiftr v 16);
   toUint8 (Z.shiftr v 24)].

(** The layout of section 6, as one equation. *)
Definition packet_layout (t : Z) (p : jsstring) : Buffer :=
  le32 (10 + Z.of_nat (length p)) ++ le32 packetId ++ le32 t
    ++ from_ascii p ++ [0; 0].

#[global] Instance is_ascii_dec s : Decision (is_ascii s).
Proof. unfold is_ascii. apply _. Defined.

#[global] Instance is_bytes_dec b : Decision (is_bytes b).
Proof. unfold is_bytes. apply _. Defined.

#[global] Instance defined_type_dec t : Decision (defined_type t).
Proof. unfold defined_type. apply _. Defined.

#[global] Instance fits_packet_dec s : Decision (fits_packet s).
Proof. unfold fits_packet. apply _. Defined.

#[global] Instance is_int32_dec v : Decision (is_int32 v).
Proof. unfold is_int32. apply _. Defined.

(** ** Values, promises and sockets *)

Inductive jsval : Type :=
  | VUndefined
  | VString (s : jsstring)
  | VError (e : exn).

(** The state of a promise.  [resolve] and [reject] act on a pending promise
    only; a settled promise never changes again. *)
Inductive promise : Type :=
  | Pending
  | Fulfilled (value : jsval)
  | Rejected (reason : jsval).

Inductive event_name : Type := close_ev | data_ev | connect_ev | error_ev.

#[global] Instance event_name_eq_dec : EqDecision event_name.
Proof. solve_decision. Defined.

(** A [net.Socket] as the session sees it: an external collaborator, kept
    as the record of the calls made on it. *)
Record Socket : Type := {
  sock_port : Z;
  sock_host : jsstring;
  sock_listeners : list event_name;   (* [on(name, handler)] calls, in order *)
  sock_written : list Buffer;         (* [write(data)] calls, in order *)
  sock_destroyed : bool               (* [destroy()] was called *)
}.

(** The [error] object of an 'error' event; [errno] may be undefined. *)
Record Error : Type := { errno : option Z }.

(** The variables captured by the closure of [RCON()], then the store of
    promises and the sockets created so far.  A variable that holds a
    promise's [resolve] or [reject] function holds the index of that promise
    in the store; a variable that holds a socket holds its index. *)
Record World : Type := {
  client : option nat;
  isAuthenticated : bool;
  isAuthenticating : bool;
  rconPassword : option jsstring;
  connectResolve : option nat;
  connectReject : option nat;
  sendResolve : option nat;
  sendReject : option nat;
  promises : list promise;
  sockets : list Socket
}.

(** [RCON()]: the state right after the factory returns. *)
Definition init : World :=
  {| client := None; isAuthenticated := false; isAuthenticating := false;
     rconPassword := None; connectResolve := None; connectReject := None;
     sendResolve := None; sendReject := None; promises := []; sockets := [] |}.

Definition set_client (v : option nat) (w : World) : World :=
  {| client := v; isAuthenticated := isAuthenticated w;
     isAuthenticating := isAuthenticating w; rconPassword := rconPassword w;
     connectResolve := connectResolve w; connectReject := connectReject w;
     sendResolve := sendResolve w; sendReject := sendReject w;
     promises := promises w; sockets := sockets w |}.

Definition set_isAuthenticated (v : bool) (w : World) : World :=
  {| client := client w; isAuthenticated := v;
     isAuthenticating := isAuthenticating w; rconPassword := rconPassword w;
     connectResolve := connectResolve w; connectReject := connectReject w;
     sendResolve := sendResolve w; sendReject := sendReject w;
     promises := promises w; sockets := sockets w |}.

Definition set_isAuthenticating (v : bool) (w : World) : World :=
  {| client := client w; isAuthenticated := isAuthenticated w;
     isAuthenticating := v; rconPassword := rconPassword w;
     connectResolve := connectResolve w; connectReject := connectReject w;
     sendResolve := sendResolve w; sendReject := sendReject w;
     promises := promises w; sockets := sockets w |}.

Definition set_rconPassword (v : option jsstring) (w : World) : World :=
  {| client := client w; isAuthenticated := isAuthenticated w;
     isAuthenticating := isAuthenticating w; rconPassword := v;
     connectResolve := connectResolve w; connectReject := connectReject w;
     sendResolve := sendResolve w; sendReject := sendReject w;
     promises := promises w; sockets := sockets w |}.

Definition set_connectResolve (v : option nat) (w : World) : World :=
  {| client := client w; isAuthenticated := isAuthenticated w;
     isAuthenticating := isAuthenticating w; rconPassword := rconPassword w;
     connectResolve := v; connectReject := connectReject w;
     sendResolve := sendResolve w; sendReject := sendReject w;
     promises := promises w; sockets := sockets w |}.

Definition set_connectReject (v : option nat) (w : World) : World :=
  {| client := client w; isAuthenticated := isAuthenticated w;
     isAuthenticating := isAuthenticating w; rconPassword := rconPassword w;
     connectResolve := connectResolve w; connectReject := v;
     sendResolve := sendResolve w; sendReject := sendReject w;
     promises := promises w; sockets := sockets w |}.

Definition set_sendResolve (v : option nat) (w : World) : World :=
  {| client := client w; isAuthenticated := isAuthenticated w;
     isAuthenticating := isAuthenticating w; rconPassword := rconPassword w;
     connectResolve := connectResolve w; connectReject := connectReject w;
     sendResolve := v; sendReject := sendReject w;
     promises := promises w; sockets := sockets w |}.

Definition set_sendReject (v : option nat) (w : World) : World :=
  {| client := client w; isAuthenticated := isAuthenticated w;
     isAuthenticating := isAuthenticating w; rconPassword := rconPassword w;
     connectResolve := connectResolve w; connectReject := connectReject w;
     sendResolve := sendResolve w; sendReject := v;
     promises := promises w; sockets := sockets w |}.

Definition set_promises (v : list promise) (w : World) : World :=
  {| client := client w; isAuthenticated := isAuthenticated w;
     isAuthenticating := isAuthenticating w; rconPassword := rconPassword w;
     connectResolve := connectResolve w; connectReject := connectReject w;
     sendResolve := sendResolve w; sendReject := sendReject w;
     promises := v; sockets := sockets w |}.

Definition set_sockets (v : list Socket) (w : World) : World :=
  {| client := client w; isAuthenticated := isAuthenticated w;
     isAuthenticating := isAuthenticating w; rconPassword := rconPassword w;
     connectResolve := connectResolve w; connectReject := connectReject w;
     sendResolve := sendResolve w; sendReject := sendReject w;
     promises := promises w; sockets := v |}.

(** ** The monad of the session code

    A statement runs in a world and ends normally or by a throw; what it
    assigned before a throw stays assigned. *)

Definition JS (A : Type) : Type := World -> completion A * World.

#[global] Instance JS_ret : MRet JS := fun A a w => (Normal a, w).
#[global] Instance JS_bind : MBind JS := fun A B f m w =>
  match m w with
  | (Normal a, w') => f a w'
  | (Throw e, w') => (Throw e, w')
  end.

Definition throw {A : Type} (e : exn) : JS A := fun w => (Throw e, w).
Definition get {A : Type} (f : World -> A) : JS A := fun w => (Normal (f w), w).
Definition modify (f : World -> World) : JS unit := fun w => (Normal tt, f w).
Definition lift {A : Type} (c : completion A) : JS A := fun w => (c, w).

(** Settling a promise: only a pending promise changes state. *)
Definition settle_in (p : nat) (s : promise) (ps : list promise) : list promise :=
  match ps !! p with
  | Some Pending => <[p := s]> ps
  | _ => ps
  end.

Definition settle (p : nat) (s : promise) : JS unit :=
  modify (fun w => set_promises (settle_in p s (promises w)) w).

Definition resolve (p : nat) (value : jsval) : JS unit := settle p (Fulfilled value).
Definition reject (p : nat) (reason : jsval) : JS unit := settle p (Rejected reason).

(** [f(args)] where [f] is a variable holding a function or [null]. *)
Definition call (f : option nat) (body : nat -> JS unit) : JS unit :=
  match f with
  | Some p => body p
  | None => throw TypeError
  end.

(** [new Promise(executor)]: the promise is created pending, the executor
    runs at once with its [resolve] and [reject], and a throw of the
    executor rejects the promise (a no-op when it is settled already). *)
Definition newPromise (executor : nat -> JS unit) : JS nat := fun w =>
  let p := length (promises w) in
  match executor p (set_promises (promises w ++ [Pending]) w) with
  | (Normal _, w') => (Normal p, w')
  | (Throw e, w') => (Normal p, snd (reject p (VError e) w'))
  end.

(** [net.createConnection(port, host)] *)
Definition createConnection (port : Z) (host : jsstring) : JS nat := fun w =>
  (Normal (length (sockets w)),
   set_sockets (sockets w ++ [{| sock_port := port; sock_host := host;
                                 sock_listeners := []; sock_written := [];
                                 sock_destroyed := false |}]) w).

(** A method call [client.m(...)]: a [TypeError] when [client] is [null]. *)
Definition on_client (m : Socket -> Socket) : JS unit :=
  c ← get client;
  match c with
  | Some i => modify (fun w => set_sockets (alter m i (sockets w)) w)
  | None => throw TypeError
  end.

Definition client_on (name : event_name) : JS unit :=
  on_client (fun s =>
    {| sock_port := sock_port s; sock_host := sock_host s;
       sock_listeners := sock_listeners s ++ [name];
       sock_written := sock_written s; sock_destroyed := sock_destroyed s |}).

Definition client_write (chunk : Buffer) : JS unit :=
  on_client (fun s =>
    {| sock_port := sock_port s; sock_host := sock_host s;
       sock_listeners := sock_listeners s;
       sock_written := sock_written s ++ [chunk];
       sock_destroyed := sock_destroyed s |}).

Definition client_destroy : JS unit :=
  on_client (fun s =>
    {| sock_port := sock_port s; sock_host := sock_host s;
       sock_listeners := sock_listeners s;
       sock_written := sock_written s; sock_destroyed := true |}).

(** ** The session of index.js: listeners *)

Definition handleConnect : JS unit :=
  authenticated ← get isAuthenticated;
  if authenticated : bool then mret tt
  else
    modify (set_isAuthenticating true);;
    password ← get rconPassword;
    authPacket ← match password with
                 | Some payload => lift (createPacket (AUTH PACKET_TYPE) payload)
                 | None => throw TypeError   (* [Buffer.from(null, 'ascii')] *)
                 end;
    client_write authPacket.

Definition handleClose (hasError : bool) : JS unit :=
  if hasError then
    f ← get sendReject;
    match f with
    | Some p => reject p (VString (str "Unable to connect to remote host"))
    | None => mret tt                        (* [sendReject?.(...)] *)
    end
  else mret tt.

Definition handleError (error : Error) : JS unit :=
  if decide (errno error = Some (-4078)) then
    f ← get connectReject;
    call f (fun p => reject p (VString (str "Remote host refused connection")))
  else if decide (errno error = Some (-3008)) then
    f ← get connectReject;
    call f (fun p => reject p (VString (str "Unable to connect to remote host")))
  else if decide (errno error = Some (-4039)) then
    f ← get connectReject;
    call f (fun p => reject p (VString (str "Connection to remote host timed out")))
  else mret tt.

Definition handleAuthResponse (buffer : Buffer) : JS unit :=
  modify (set_isAuthenticating false);;
  id ← lift (getId buffer);
  if negb (id =? packetId) then
    modify (set_isAuthenticated false);;
    f ← get connectReject;
    call f (fun p => reject p (VString (str "RCON authentication failed")))
  else
    modify (set_isAuthenticated true);;
    f ← get connectResolve;
    call f (fun p => resolve p VUndefined).

Definition handleDataResponse (buffer : Buffer) : JS unit :=
  f ← get sendResolve;
  match f with
  | Some p => payload ← lift (getPayload buffer); resolve p (VString payload)
  | None => mret tt                          (* [sendResolve?.(...)] *)
  end.

Definition handleData (buffer : Buffer) : JS unit :=
  authenticating ← get isAuthenticating;
  (if authenticating : bool then handleAuthResponse buffer else mret tt);;
  handleDataResponse buffer.

(** ** The session of index.js: public operations *)

Definition connect (host : jsstring) (port : Z) (password : jsstring) : JS nat :=
  newPromise (fun p =>
    modify (set_connectReject (Some p));;
    modify (set_connectResolve (Some p));;
    c ← createConnection port host;
    modify (set_client (Some c));;
    modify (set_rconPassword (Some password));;
    client_on close_ev;;
    client_on data_ev;;
    client_on connect_ev;;
    client_on error_ev).

Definition disconnect : JS nat :=
  newPromise (fun p =>
    client_destroy;;
    modify (set_isAuthenticated false);;
    modify (set_isAuthenticating false);;
    resolve p VUndefined).

Definition send (command : jsstring) : JS nat :=
  newPromise (fun p =>
    modify (set_sendReject (Some p));;
    modify (set_sendResolve (Some p));;
    authenticated ← get isAuthenticated;
    (if negb authenticated
     then reject p (VString (str "RCON client not authenticated"))
     else mret tt);;
    commandPacket ← lift (createPacket (EXEC_COMMAND PACKET_TYPE) command);
    client_write commandPacket).

(** ** Events and traces

    The socket calls the listeners registered for the name of the event, in
    the order of registration; [connect] registers one listener per name. *)

Inductive event : Type :=
  | Close (hasError : bool)
  | Data (buffer : Buffer)
  | Connected
  | Failed (error : Error).

Definition name_of (ev : event) : event_name :=
  match ev with
  | Close _ => close_ev
  | Data _ => data_ev
  | Connected => connect_ev
  | Failed _ => error_ev
  end.

Definition listener (ev : event) : JS unit :=
  match ev with
  | Close hasError => handleClose hasError
  | Data buffer => handleData buffer
  | Connected => handleConnect
  | Failed error => handleError error
  end.

Fixpoint dispatch (names : list event_name) (ev : event) : JS unit :=
  match names with
  | [] => mret tt
  | n :: rest =>
      (if decide (n = name_of ev) then listener ev else mret tt);;
      dispatch rest ev
  end.

Definition emit (sock : nat) (ev : event) : JS unit := fun w =>
  match sockets w !! sock with
  | Some s => dispatch (sock_listeners s) ev w
  | None => (Normal tt, w)
  end.

(** What can happen to a session: a call of its API, or an event of one
    of its sockets. *)
Inductive action : Type :=
  | DoConnect (host : jsstring) (port : Z) (password : jsstring)
  | DoSend (command : jsstring)
  | DoDisconnect
  | Event (sock : nat) (ev : event).

Definition step (a : action) (w : World) : World :=
  match a with
  | DoConnect host port password => snd (connect host port password w)
  | DoSend command => snd (send command w)
  | DoDisconnect => snd (disconnect w)
  | Event sock ev => snd (emit sock ev w)
  end.

Definition run (trace : list action) (w : World) : World :=
  foldl (fun w a => step a w) w trace.

(** The states a session can be in.  A throw that escapes a listener is not
    taken to end the process, so this set is an upper bound. *)
Inductive reachable : World -> Prop :=
  | reachable_init : reachable init
  | reachable_step a w : reachable w -> reachable (step a w).

(** A payload that is not ASCII: "A", e acute, the euro sign. *)
Definition accented : jsstring := [65; 233; 8364].

(** Packets a server can send: an AUTH_RESPONSE with the id 1337 and an
    empty payload, the same with the id -1, and a RESPONSE_VALUE with the
    payload "OK". *)
Definition auth_reply : Buffer := [10; 0; 0; 0; 57; 5; 0; 0; 2; 0; 0; 0; 0; 0].
Definition auth_refusal : Buffer :=
  [10; 0; 0; 0; 255; 255; 255; 255; 2; 0; 0; 0; 0; 0].
Definition ok_answer : Buffer :=
  [12; 0; 0; 0; 57; 5; 0; 0; 0; 0; 0; 0; 79; 75; 0; 0].

(** The concrete scenario of section 8: a successful connect, then the
    command being sent. *)
Definition scenario_connected : list action :=
  [DoConnect (str "127.0.0.1") 27015 (str "secret");
   Event 0%nat Connected;
   Event 0%nat (Data auth_reply)].

Definition scenario_ready : list action :=
  scenario_connected ++ [DoSend (str "status")].

(** A session that disconnects with a command unanswered and connects
    again: it waits for the reply to AUTH while the old send operation is
    still pending. *)
Definition scenario_reconnecting : list action :=
  scenario_ready
    ++ [DoDisconnect;
        DoConnect (str "127.0.0.1") 27015 (str "secret");
        Event 1%nat Connected].

(** The states of section 4.2, read off the two flags. *)
Definition Authenticating (w : World) : Prop := isAuthenticating w = true.
Definition Ready (w : World) : Prop :=
  isAuthenticated w = true /\ isAuthenticating w = false.

(** What every reachable world satisfies.  The flags exclude each other;
    the two variables of an operation hold the functions of one promise;
    the promise of the connect operation is not the promise of the send
    operation; and once a socket exists, [connect] has run, so the connect
    variables are set. *)
Record wf (w : World) : Prop := {
  wf_flags : isAuthenticated w = true -> isAuthenticating w = false;
  wf_connect : connectResolve w = connectReject w;
  wf_send : sendResolve w = sendReject w;
  wf_connect_bound :
    forall p, connectResolve w = Some p -> (p < length (promises w))%nat;
  wf_send_bound :
    forall p, sendResolve w = Some p -> (p < length (promises w))%nat;
  wf_distinct : forall p, connectResolve w = Some p -> sendResolve w <> Some p;
  wf_sockets : sockets w <> [] -> is_Some (connectResolve w);
  wf_authenticating : isAuthenticating w = true -> sockets w <> []
}.

Definition mapped_errno (e : Error) : Prop :=
  errno e ∈ [Some (-4078); Some (-3008); Some (-4039)].

#[global] Instance mapped_errno_dec e : Decision (mapped_errno e).
Proof. unfold mapped_errno. apply _. Defined.

(** The reasons [handleError] rejects with. *)
Definition error_causes : list jsstring :=
  [str "Remote host refused connection";
   str "Unable to connect to remote host";
   str "Connection to remote host timed out"].

(** The world after [connect(host, port, password)] alone. *)
Definition connecting (host : jsstring) (port : Z) (password : jsstring) : World :=
  {| client := Some 0%nat; isAuthenticated := false; isAuthenticating := false;
     rconPassword := Some password;
     connectResolve := Some 0%nat; connectReject := Some 0%nat;
     sendResolve := None; sendReject := None;
     promises := [Pending];
     sockets := [{| sock_port := port; sock_host := host;
                    sock_listeners := [close_ev; data_ev; connect_ev; error_ev];
                    sock_written := []; sock_destroyed := false |}] |}.

(** The world after [connect(host, port, password)] on a new session and
    the 'connect' event of its socket: the AUTH packet is written and the
    session waits for the reply. *)
Definition handshake_sent (host : jsstring) (port : Z) (password : jsstring) : World :=
  {| client := Some 0%nat; isAuthenticated := false; isAuthenticating := true;
     rconPassword := Some password;
     connectResolve := Some 0%nat; connectReject := Some 0%nat;
     sendResolve := None; sendReject := None;
     promises := [Pending];
     sockets := [{| sock_port := port; sock_host := host;
                    sock_listeners := [close_ev; data_ev; connect_ev; error_ev];
                    sock_written := [packet_layout (AUTH PACKET_TYPE) password];
                    sock_destroyed := false |}] |}.

(** A world with a socket: the only worlds in which a listener runs. *)
Definition live (w : World) : Prop := wf w /\ sockets w <> [].

(** The session of the scenario of section 8 once its AUTH packet is out. *)
Definition handshake_example : World :=
  handshake_sent (str "127.0.0.1") 27015 (str "secret").

(** A socket as [connect] sets it up and as the session uses it: one
    listener per event, and nothing written but AUTH and EXEC_COMMAND
    packets built by [createPacket]. *)
Definition session_packet (b : Buffer) : Prop :=
  exists t p, (t = AUTH PACKET_TYPE \/ t = EXEC_COMMAND PACKET_TYPE)
              /\ createPacket t p = Normal b.

Definition socket_ok (s : Socket) : Prop :=
  sock_listeners s = [close_ev; data_ev; connect_ev; error_ev]
  /\ Forall session_packet (sock_written s).

(** What every reachable world satisfies on the side of the sockets:
    [client] is [null] or one of the sockets created, it is set once a
    socket exists, and the session is authenticated only with a socket. *)
Record wired (w : World) : Prop := {
  wired_sockets : Forall socket_ok (sockets w);
  wired_client : forall i, client w = Some i -> (i < length (sockets w))%nat;
  wired_nonempty : sockets w <> [] -> is_Some (client w);
  wired_authenticated : isAuthenticated w = true -> sockets w <> []
}.

(** A promise no variable of the closure can settle any more. *)
Record dropped (p : nat) (w : World) : Prop := {
  dropped_bound : (p < length (promises w))%nat;
  dropped_connectResolve : connectResolve w <> Some p;
  dropped_connectReject : connectReject w <> Some p;
  dropped_sendResolve : sendResolve w <> Some p;
  dropped_sendReject : sendReject w <> Some p
}.

(** The socket [net.createConnection] returns once [connect] has
    registered its four listeners. *)
Definition new_socket (port : Z) (host : jsstring) : Socket :=
  {| sock_port := port; sock_host := host;
     sock_listeners := [close_ev; data_ev; connect_ev; error_ev];
     sock_written := []; sock_destroyed := false |}.

(** The socket of the scenario of section 8 after the handshake. *)
Definition scenario_socket : Socket :=
  {| sock_port := 27015; sock_host := str "127.0.0.1";
     sock_listeners := [close_ev; data_ev; connect_ev; error_ev];
     sock_written := [packet_layout (AUTH PACKET_TYPE) (str "secret")];
     sock_destroyed := false |}.

(** The world after [send(command)] on an authenticated session whose
    [client] is the socket [i]. *)
Definition after_send (command : jsstring) (i : nat) (w : World) : World :=
  set_sockets
    (alter (fun s =>
              {| sock_port := sock_port s; sock_host := sock_host s;
                 sock_listeners := sock_listeners s;
                 sock_written :=
                   sock_written s
                     ++ [packet_layout (EXEC_COMMAND PACKET_TYPE) command];
                 sock_destroyed := sock_destroyed s |})
       i (sockets w))
    (set_sendResolve (Some (length (promises w)))
       (set_sendReject (Some (length (promises w)))
          (set_promises (promises w ++ [Pending]) w))).

(** The socket of the scenario once "status" has been sent. *)
Definition after_send_socket : Socket :=
  {| sock_port := 27015; sock_host := str "127.0.0.1";
     sock_listeners := [close_ev; data_ev; connect_ev; error_ev];
     sock_written := [packet_layout (AUTH PACKET_TYPE) (str "secret");
                      packet_layout (EXEC_COMMAND PACKET_TYPE) (str "status")];
     sock_destroyed := false |}.

(** A dropped promise stays dropped and keeps its state. *)
Definition kept (p : nat) (w w' : World) : Prop :=
  dropped p w' /\ promises w' !! p = promises w !! p.

(** A wired world with a socket: where the listeners run. *)
Definition plugged (w : World) : Prop := wired w /\ sockets w <> [].

(** The first socket of the scenario after [disconnect]. *)
Definition destroyed_socket : Socket :=
  {| sock_port := 27015; sock_host := str "127.0.0.1";
     sock_listeners := [close_ev; data_ev; connect_ev; error_ev];
     sock_written := [packet_layout (AUTH PACKET_TYPE) (str "secret");
                      packet_layout (EXEC_COMMAND PACKET_TYPE) (str "status")];
     sock_destroyed := true |}.

(** The buffers the 'data' listener cannot decode: while authenticating
    it reads the id, otherwise it reads the size when a send operation is
    recorded, and nothing at all when none is. *)
Definition undecodable (w : World) (b : Buffer) : Prop :=
  (isAuthenticating w = true /\ (length b < 8)%nat)
  \/ (isAuthenticating w = false /\ is_Some (sendResolve w)
      /\ (length b < 4)%nat).

(** Once a socket exists, [connect] has stored a password. *)
Definition keyed (w : World) : Prop :=
  sockets w <> [] -> is_Some (rconPassword w).

(** * Properties of the codec *)

Section Codec.

Implicit Types (b : Buffer) (p : jsstring) (t v : Z).

(** The buffer operations on small inputs. *)

Example readInt32LE_negative : readInt32LE [255; 255; 255; 255] = Normal (-1).
Proof. reflexivity. Qed.

Example readInt32LE_min : readInt32LE [0; 0; 0; 128; 7] = Normal int32_min.
Proof. reflexivity. Qed.

Example readInt32LE_short : readInt32LE [57; 5; 0] = Throw RangeError.
Proof. reflexivity. Qed.

Example writeInt32LE_packetId :
  writeInt32LE (alloc 4 0) packetId = Normal [57; 5; 0; 0].
Proof. reflexivity. Qed.

Example writeInt32LE_too_large :
  writeInt32LE (alloc 4 0) 2147483648 = Throw RangeError.
Proof. reflexivity. Qed.

Example subarray_clamps : subarray [1; 2; 3; 4; 5] 3 12 = [4; 5].
Proof. reflexivity. Qed.

Example subarray_from_the_end : subarray [1; 2; 3; 4; 5] 1 (-1) = [2; 3; 4].
Proof. reflexivity. Qed.

Example subarray_empty : subarray [1; 2; 3; 4; 5] 4 2 = [].
Proof. reflexivity. Qed.

Example from_ascii_cuts : from_ascii [65; 233; 8364] = [65; 233; 172].
Proof. reflexivity. Qed.

Example toString_ascii_clears : toString_ascii [65; 233; 172] = [65; 105; 44].
Proof. reflexivity. Qed.

Example createPacket_secret :
  createPacket (AUTH PACKET_TYPE) (str "secret")
  = Normal [16; 0; 0; 0; 57; 5; 0; 0; 3; 0; 0; 0;
            115; 101; 99; 114; 101; 116; 0; 0].
Proof. reflexivity. Qed.

Lemma toUint8_mod v : toUint8 v = v mod 256.
Proof. unfold toUint8. change 255 with (Z.ones 8). now rewrite Z.land_ones. Qed.

Lemma toUint8_range v : 0 <= toUint8 v < 256.
Proof. rewrite toUint8_mod. apply Z.mod_pos_bound. lia. Qed.

Lemma land_127_mod v : Z.land v 127 = v mod 128.
Proof. change 127 with (Z.ones 7). now rewrite Z.land_ones. Qed.

Lemma length_le32 v : length (le32 v) = 4%nat.
Proof. reflexivity. Qed.

Lemma le32_bytes v : is_bytes (le32 v).
Proof. unfold le32, is_bytes. repeat constructor; apply toUint8_range. Qed.

(** Reading back the four bytes of an int32 gives the int32. *)
Lemma readInt32LE_le32 v rest :
  is_int32 v -> readInt32LE (le32 v ++ rest) = Normal v.
Proof.
  unfold is_int32, int32_min, int32_max. intros Hv.
  cbn [le32 app readInt32LE]. f_equal.
  rewrite !toUint8_mod, !Z.shiftr_div_pow2, Z.shiftl_mul_pow2 by lia.
  unfold toInt32.
  change (2 ^ 8) with 256. change (2 ^ 16) with 65536.
  change (2 ^ 24) with 16777216.
  Z.div_mod_to_equations. lia.
Qed.

Lemma writeInt32LE_alloc v :
  is_int32 v -> writeInt32LE (alloc 4 0) v = Normal (le32 v).
Proof.
  unfold is_int32, writeInt32LE. intros Hv.
  destruct (Z.ltb_spec int32_max v); [lia|].
  destruct (Z.ltb_spec v int32_min); [lia|]. reflexivity.
Qed.

Lemma writeInt32LE_out_of_range b v :
  ~ is_int32 v -> writeInt32LE b v = Throw RangeError.
Proof.
  unfold is_int32, writeInt32LE. intros Hv.
  destruct (Z.ltb_spec int32_max v); [reflexivity|].
  destruct (Z.ltb_spec v int32_min); [reflexivity|]. lia.
Qed.

Lemma adjustOffset_inside (i n : nat) :
  (i <= n)%nat -> adjustOffset (Z.of_nat i) (Z.of_nat n) = Z.of_nat i.
Proof.
  intros Hi. unfold adjustOffset.
  destruct (Z.eqb_spec (Z.of_nat i) 0); [lia|].
  destruct (Z.ltb_spec (Z.of_nat i) 0); [lia|].
  destruct (Z.ltb_spec (Z.of_nat i) (Z.of_nat n)); lia.
Qed.

(** [subarray] with both offsets inside the buffer is a plain slice. *)
Lemma subarray_slice b (i j : nat) :
  (i <= j <= length b)%nat ->
  subarray b (Z.of_nat i) (Z.of_nat j) = take (j - i) (drop i b).
Proof.
  intros Hij. unfold subarray, byteLength.
  rewrite !adjustOffset_inside by lia. rewrite Nat2Z.id.
  destruct (Z.ltb_spec (Z.of_nat i) (Z.of_nat j)).
  - now replace (Z.to_nat (Z.of_nat j - Z.of_nat i)) with (j - i)%nat by lia.
  - now replace (j - i)%nat with 0%nat by lia.
Qed.

Lemma toString_from_ascii p : is_ascii p -> toString_ascii (from_ascii p) = p.
Proof.
  unfold is_ascii, toString_ascii, from_ascii.
  induction 1 as [|c p Hc _ IH]; [reflexivity|].
  cbn. rewrite IH. f_equal.
  change (Z.land c 255) with (toUint8 c).
  rewrite land_127_mod, toUint8_mod.
  rewrite (Z.mod_small c 256) by lia. apply Z.mod_small. lia.
Qed.

Lemma length_from_ascii p : length (from_ascii p) = length p.
Proof. apply length_fmap. Qed.

Lemma from_ascii_bytes p : is_bytes (from_ascii p).
Proof.
  unfold is_bytes, from_ascii. apply Forall_fmap, Forall_forall.
  intros c _. apply toUint8_range.
Qed.

Lemma createPacket_layout t p :
  is_int32 t -> fits_packet p -> createPacket t p = Normal (packet_layout t p).
Proof.
  unfold fits_packet. intros Ht Hp. unfold createPacket.
  rewrite (writeInt32LE_alloc packetId) by (unfold is_int32; cbv; split; discriminate).
  cbn [mbind completion_bind].
  rewrite (writeInt32LE_alloc t Ht). cbn [mbind completion_bind].
  replace (byteLength _) with (10 + Z.of_nat (length p)).
  - rewrite writeInt32LE_alloc by (unfold is_int32, int32_min in *; lia).
    cbn [mbind completion_bind mret completion_ret]. f_equal.
    unfold concat, packet_layout, alloc.
    cbn [mjoin list_join replicate].
    now rewrite !app_nil_r.
  - unfold byteLength, concat. cbn [mjoin list_join].
    rewrite !length_app, !length_le32, length_from_ascii. cbn. lia.
Qed.

Lemma createPacket_throws t p :
  ~ (is_int32 t /\ fits_packet p) -> createPacket t p = Throw RangeError.
Proof.
  intros Hn. unfold createPacket.
  rewrite (writeInt32LE_alloc packetId) by (unfold is_int32; cbv; split; discriminate).
  cbn [mbind completion_bind].
  destruct (decide (is_int32 t)) as [Ht|Ht].
  - rewrite (writeInt32LE_alloc t Ht). cbn [mbind completion_bind].
    rewrite writeInt32LE_out_of_range; [reflexivity|].
    unfold byteLength, concat. cbn [mjoin list_join].
    rewrite !length_app, !length_le32, length_from_ascii.
    unfold is_int32, fits_packet in *. cbn. lia.
  - now rewrite writeInt32LE_out_of_range.
Qed.

Lemma packet_layout_bytes t p : is_bytes (packet_layout t p).
Proof.
  unfold packet_layout, is_bytes. rewrite !Forall_app.
  repeat split; try apply le32_bytes; try apply from_ascii_bytes.
  repeat constructor; lia.
Qed.

Lemma createPacket_bytes t p b : createPacket t p = Normal b -> is_bytes b.
Proof.
  intros Hb. destruct (decide (is_int32 t /\ fits_packet p)) as [[Ht Hp]|Hn].
  - rewrite createPacket_layout in Hb by assumption.
    injection Hb as <-. apply packet_layout_bytes.
  - rewrite createPacket_throws in Hb by assumption. discriminate.
Qed.

Lemma length_packet_layout t p :
  length (packet_layout t p) = (14 + length p)%nat.
Proof.
  unfold packet_layout.
  rewrite !length_app, !length_le32, length_from_ascii. cbn. lia.
Qed.

Lemma getId_layout t p : getId (packet_layout t p) = Normal packetId.
Proof.
  unfold getId.
  rewrite (subarray_slice _ 4 8) by (rewrite length_packet_layout; lia).
  unfold packet_layout. cbn [le32 app drop take Nat.sub].
  apply (readInt32LE_le32 packetId []). cbv. split; discriminate.
Qed.

Lemma getType_layout t p : is_int32 t -> getType (packet_layout t p) = Normal t.
Proof.
  intros Ht. unfold getType.
  rewrite (subarray_slice _ 8 12) by (rewrite length_packet_layout; lia).
  unfold packet_layout. cbn [le32 app drop take Nat.sub].
  apply (readInt32LE_le32 t [] Ht).
Qed.

Lemma size_layout t p :
  fits_packet p ->
  readInt32LE (subarray (packet_layout t p) 0 4)
  = Normal (10 + Z.of_nat (length p)).
Proof.
  intros Hp.
  rewrite (subarray_slice _ 0 4) by (rewrite length_packet_layout; lia).
  unfold packet_layout. cbn [le32 app drop take Nat.sub].
  apply (readInt32LE_le32 _ []).
  unfold is_int32, fits_packet, int32_min in *. lia.
Qed.

Lemma getPayload_layout t p :
  fits_packet p ->
  getPayload (packet_layout t p) = Normal (toString_ascii (from_ascii p)).
Proof.
  intros Hp. unfold getPayload. rewrite size_layout by assumption.
  cbn [mbind completion_bind mret completion_ret]. do 2 f_equal.
  replace (12 + (10 + Z.of_nat (length p) - 10))
    with (Z.of_nat (12 + length p)) by lia.
  rewrite (subarray_slice _ 12) by (rewrite length_packet_layout; lia).
  unfold packet_layout. cbn [le32 app drop].
  replace (12 + length p - 12)%nat with (length (from_ascii p))
    by (rewrite length_from_ascii; lia).
  apply take_app_length.
Qed.

End Codec.

Section CodecClaims.

Implicit Types (b : Buffer) (p : jsstring) (t : Z).

(** C1. Round trip: for every defined packet type [t] and every ASCII
    payload [p] (of a length a packet can carry), [createPacket t p] returns
    a buffer from which [getId] reads the fixed id 1337, [getType] reads [t]
    and [getPayload] reads [p]. *)
Theorem createPacket_roundtrip t p :
  defined_type t -> is_ascii p -> fits_packet p ->
  exists b, createPacket t p = Normal b
            /\ getId b = Normal 1337
            /\ getType b = Normal t
            /\ getPayload b = Normal p.
Proof.
  intros Ht Hascii Hfits.
  assert (is_int32 t) as Ht32.
  { unfold defined_type in Ht. cbn in Ht.
    rewrite !elem_of_cons, elem_of_nil in Ht.
    unfold is_int32, int32_min, int32_max. lia. }
  exists (packet_layout t p). split; [now apply createPacket_layout|].
  split; [apply getId_layout|]. split; [now apply getType_layout|].
  rewrite getPayload_layout by assumption.
  now rewrite toString_from_ascii.
Qed.

Lemma createPacket_roundtrip_witness :
  defined_type 3 /\ is_ascii (str "secret") /\ fits_packet (str "secret")
  /\ exists b, createPacket 3 (str "secret") = Normal b
               /\ getId b = Normal 1337
               /\ getType b = Normal 3
               /\ getPayload b = Normal (str "secret").
Proof.
  assert (defined_type 3) as H1 by (apply (bool_decide_unpack _); vm_compute; exact I).
  assert (is_ascii (str "secret")) as H2
    by (apply (bool_decide_unpack _); vm_compute; exact I).
  assert (fits_packet (str "secret")) as H3
    by (apply (bool_decide_unpack _); vm_compute; exact I).
  split; [exact H1|]. split; [exact H2|]. split; [exact H3|].
  exact (createPacket_roundtrip 3 (str "secret") H1 H2 H3).
Defined.

(** C2. Size invariant and trailer: for every int32 type [t] and every
    payload [p] a packet can carry, the packet [createPacket] returns starts
    with four bytes that read, as a little-endian int32, as the length of the
    packet minus 4, which is 10 plus the length of [p]; the payload bytes
    sit at offset 12 and exactly the two bytes 0, 0 follow them. *)
Theorem createPacket_size_trailer t p :
  is_int32 t -> fits_packet p ->
  exists b, createPacket t p = Normal b
            /\ readInt32LE (subarray b 0 4) = Normal (byteLength b - 4)
            /\ byteLength b - 4 = 10 + Z.of_nat (length p)
            /\ take (length p) (drop 12 b) = from_ascii p
            /\ drop (12 + length p) b = [0; 0].
Proof.
  intros Ht Hfits. exists (packet_layout t p).
  assert (byteLength (packet_layout t p) - 4 = 10 + Z.of_nat (length p)) as Hlen.
  { unfold byteLength. rewrite length_packet_layout. lia. }
  split; [now apply createPacket_layout|].
  split; [rewrite Hlen; now apply size_layout|].
  split; [exact Hlen|].
  unfold packet_layout. cbn [le32 app drop].
  rewrite <- (length_from_ascii p). split.
  - apply take_app_length.
  - apply drop_app_length.
Qed.

Lemma createPacket_size_trailer_witness :
  is_int32 2 /\ fits_packet (str "status")
  /\ exists b, createPacket 2 (str "status") = Normal b
               /\ readInt32LE (subarray b 0 4) = Normal (byteLength b - 4)
               /\ byteLength b - 4 = 10 + Z.of_nat (length (str "status"))
               /\ take (length (str "status")) (drop 12 b) = from_ascii (str "status")
               /\ drop (12 + length (str "status")) b = [0; 0].
Proof.
  assert (is_int32 2) as H1 by (apply (bool_decide_unpack _); vm_compute; exact I).
  assert (fits_packet (str "status")) as H2
    by (apply (bool_decide_unpack _); vm_compute; exact I).
  split; [exact H1|]. split; [exact H2|].
  exact (createPacket_size_trailer 2 (str "status") H1 H2).
Defined.

End CodecClaims.

(** * Edges of the codec *)

Section CodecEdges.

Implicit Types (b rest : Buffer) (p : jsstring) (t v size : Z).

Lemma adjustOffset_nat (i n : nat) :
  adjustOffset (Z.of_nat i) (Z.of_nat n) = Z.of_nat (Nat.min i n).
Proof.
  unfold adjustOffset.
  destruct (Z.eqb_spec (Z.of_nat i) 0); [lia|].
  destruct (Z.ltb_spec (Z.of_nat i) 0); [lia|].
  destruct (Z.ltb_spec (Z.of_nat i) (Z.of_nat n)); lia.
Qed.

Lemma length_subarray b (i j : nat) :
  length (subarray b (Z.of_nat i) (Z.of_nat j))
  = (Nat.min j (length b) - Nat.min i (length b))%nat.
Proof.
  unfold subarray, byteLength. rewrite !adjustOffset_nat.
  rewrite length_take, length_drop.
  destruct (Z.ltb_spec (Z.of_nat (Nat.min i (length b)))
              (Z.of_nat (Nat.min j (length b)))); lia.
Qed.

Lemma readInt32LE_short_throws b :
  (length b < 4)%nat -> readInt32LE b = Throw RangeError.
Proof.
  destruct b as [|? [|? [|? [|? ?]]]]; cbn; try reflexivity. lia.
Qed.

Lemma subarray_app_l b rest (i j : nat) :
  (i <= j <= length b)%nat ->
  subarray (b ++ rest) (Z.of_nat i) (Z.of_nat j)
  = subarray b (Z.of_nat i) (Z.of_nat j).
Proof.
  intros Hij. rewrite !subarray_slice by (rewrite ?length_app; lia).
  rewrite drop_app_le by lia. rewrite take_app_le; [reflexivity|].
  rewrite length_drop. lia.
Qed.

Lemma land_127_fixed c : Z.land c 127 = c <-> 0 <= c < 128.
Proof.
  rewrite land_127_mod. split.
  - intros <-. apply Z.mod_pos_bound. lia.
  - intros Hc. now apply Z.mod_small.
Qed.

Lemma toString_from_ascii_mask p :
  toString_ascii (from_ascii p) = (fun c => Z.land c 127) <$> p.
Proof.
  unfold toString_ascii, from_ascii. rewrite <- list_fmap_compose.
  apply list_fmap_ext. intros _ c _. cbn.
  rewrite <- Z.land_assoc. reflexivity.
Qed.

Lemma fmap_mask_fixed p : (fun c => Z.land c 127) <$> p = p <-> is_ascii p.
Proof.
  unfold is_ascii. induction p as [|c p IH]; cbn.
  - split; [constructor|reflexivity].
  - split.
    + intros H. injection H as H1 H2. constructor.
      * now apply land_127_fixed.
      * now apply IH.
    + intros H. inversion H as [|? ? Hc Hp]; subst.
      apply land_127_fixed in Hc. apply IH in Hp. congruence.
Qed.

(** X1. [createPacket] returns exactly when the type is an int32 and the
    body length [10 + len payload] is one; in every other case it throws a
    RangeError, from the [writeInt32LE] of the type or of the size. *)
Theorem createPacket_returns_iff t p :
  ((exists b, createPacket t p = Normal b) <-> is_int32 t /\ fits_packet p)
  /\ (createPacket t p = Throw RangeError <-> ~ (is_int32 t /\ fits_packet p)).
Proof.
  destruct (decide (is_int32 t /\ fits_packet p)) as [[Ht Hp]|Hn].
  - rewrite createPacket_layout by assumption. split; split; try tauto.
    + intros _. eauto.
    + discriminate.
  - rewrite createPacket_throws by assumption. split; split; try tauto.
    intros [b Hb]. discriminate.
Qed.

(** X2. Whatever the int32 type and whatever the payload, ASCII or not,
    the buffer [createPacket] returns holds bytes only, is 14 bytes longer
    than the payload, and decodes to the id 1337 and to the type given. *)
Theorem createPacket_header t p b :
  createPacket t p = Normal b ->
  is_bytes b
  /\ length b = (14 + length p)%nat
  /\ getId b = Normal packetId
  /\ getType b = Normal t.
Proof.
  intros Hb. destruct (decide (is_int32 t /\ fits_packet p)) as [[Ht Hp]|Hn].
  - rewrite createPacket_layout in Hb by assumption. injection Hb as <-.
    split; [apply packet_layout_bytes|].
    split; [apply length_packet_layout|].
    split; [apply getId_layout | now apply getType_layout].
  - rewrite createPacket_throws in Hb by assumption. discriminate.
Qed.

Lemma createPacket_header_witness :
  createPacket (-7) accented = Normal
    [13; 0; 0; 0; 57; 5; 0; 0; 249; 255; 255; 255; 65; 233; 172; 0; 0]
  /\ is_bytes [13; 0; 0; 0; 57; 5; 0; 0; 249; 255; 255; 255; 65; 233; 172; 0; 0]
  /\ length [13; 0; 0; 0; 57; 5; 0; 0; 249; 255; 255; 255; 65; 233; 172; 0; 0]
     = (14 + length accented)%nat
  /\ getId [13; 0; 0; 0; 57; 5; 0; 0; 249; 255; 255; 255; 65; 233; 172; 0; 0]
     = Normal packetId
  /\ getType [13; 0; 0; 0; 57; 5; 0; 0; 249; 255; 255; 255; 65; 233; 172; 0; 0]
     = Normal (-7).
Proof.
  split; [reflexivity|].
  exact (createPacket_header (-7) accented _ eq_refl).
Defined.

(** X3. Decoding what was encoded clears everything but the low seven
    bits of each code unit of the payload; so the round trip gives the
    payload back exactly when the payload is ASCII. *)
Theorem getPayload_createPacket t p b :
  createPacket t p = Normal b ->
  getPayload b = Normal ((fun c => Z.land c 127) <$> p)
  /\ (getPayload b = Normal p <-> is_ascii p).
Proof.
  intros Hb. destruct (decide (is_int32 t /\ fits_packet p)) as [[Ht Hp]|Hn].
  - rewrite createPacket_layout in Hb by assumption. injection Hb as <-.
    rewrite getPayload_layout, toString_from_ascii_mask by assumption.
    split; [reflexivity|]. rewrite <- fmap_mask_fixed. split.
    + intros H. now injection H.
    + intros ->. reflexivity.
  - rewrite createPacket_throws in Hb by assumption. discriminate.
Qed.

Lemma getPayload_createPacket_witness :
  createPacket 2 accented = Normal
    [13; 0; 0; 0; 57; 5; 0; 0; 2; 0; 0; 0; 65; 233; 172; 0; 0]
  /\ getPayload [13; 0; 0; 0; 57; 5; 0; 0; 2; 0; 0; 0; 65; 233; 172; 0; 0]
     = Normal ((fun c => Z.land c 127) <$> accented)
  /\ (getPayload [13; 0; 0; 0; 57; 5; 0; 0; 2; 0; 0; 0; 65; 233; 172; 0; 0]
      = Normal accented <-> is_ascii accented).
Proof.
  split; [reflexivity|].
  exact (getPayload_createPacket 2 accented _ eq_refl).
Defined.

(** [subarray] between two offsets in order: what is there of the slice. *)
Lemma subarray_nat b (i j : nat) :
  (i <= j)%nat ->
  subarray b (Z.of_nat i) (Z.of_nat j) = take (j - i) (drop i b).
Proof.
  intros Hij. unfold subarray, byteLength. rewrite !adjustOffset_nat.
  rewrite Nat2Z.id.
  destruct (Z.ltb_spec (Z.of_nat (Nat.min i (length b)))
              (Z.of_nat (Nat.min j (length b)))) as [Hlt|Hge].
  - replace (Nat.min i (length b)) with i by lia.
    destruct (decide (j <= length b)%nat).
    + f_equal. lia.
    + rewrite !take_ge by (rewrite length_drop; lia). reflexivity.
  - cbn [Z.to_nat take].
    destruct (decide (i < length b)%nat).
    + replace (j - i)%nat with 0%nat by lia. reflexivity.
    + rewrite (drop_ge b i) by lia. now rewrite take_nil.
Qed.

Lemma readInt32LE_returns_iff b :
  (exists v, readInt32LE b = Normal v) <-> (4 <= length b)%nat.
Proof.
  destruct b as [|? [|? [|? [|? ?]]]]; cbn; split; try lia; eauto;
    intros [? ?]; discriminate.
Qed.

Lemma read_field b (i : nat) :
  (readInt32LE (subarray b (Z.of_nat i) (Z.of_nat (i + 4))) = Throw RangeError
   <-> (length b < i + 4)%nat)
  /\ ((exists v, readInt32LE (subarray b (Z.of_nat i) (Z.of_nat (i + 4)))
                = Normal v)
      <-> (i + 4 <= length b)%nat).
Proof.
  pose proof (length_subarray b i (i + 4)) as Hlen.
  destruct (decide (i + 4 <= length b)%nat) as [Hle|Hlt].
  - destruct (proj2 (readInt32LE_returns_iff
                       (subarray b (Z.of_nat i) (Z.of_nat (i + 4)))))
      as [v Hv]; [lia|].
    rewrite Hv. split; split; try lia; try discriminate; eauto.
  - rewrite readInt32LE_short_throws by lia.
    split; split; try lia; try reflexivity. intros [v Hv]. discriminate.
Qed.

(** X4. The only failure of the decoders is a RangeError on a buffer that
    stops before the end of the field they read: [getPayload] needs the 4
    bytes of the size, [getId] the first 8 bytes, [getType] the first 12;
    on every buffer that long they return. *)
Theorem decoders_throw_iff_short b :
  (getPayload b = Throw RangeError <-> (length b < 4)%nat)
  /\ ((exists payload, getPayload b = Normal payload) <-> (4 <= length b)%nat)
  /\ (getId b = Throw RangeError <-> (length b < 8)%nat)
  /\ ((exists id, getId b = Normal id) <-> (8 <= length b)%nat)
  /\ (getType b = Throw RangeError <-> (length b < 12)%nat)
  /\ ((exists t, getType b = Normal t) <-> (12 <= length b)%nat).
Proof.
  split; [|split]; [| |exact (conj (proj1 (read_field b 4))
                            (conj (proj2 (read_field b 4))
                               (conj (proj1 (read_field b 8))
                                  (proj2 (read_field b 8)))))];
    pose proof (read_field b 0) as [Ht Hr];
    change (Z.of_nat 0) with 0 in Ht, Hr;
    change (Z.of_nat (0 + 4)) with 4 in Ht, Hr;
    unfold getPayload;
    destruct (readInt32LE (subarray b 0 4)) as [v|e];
    cbn [mbind completion_bind mret completion_ret].
  - split; [discriminate|]. intros Hl. apply Ht in Hl. discriminate.
  - rewrite <- Ht. split; intros H; injection H as ->; reflexivity.
  - split; [intros _; apply Hr; eauto | eauto].
  - split; [intros [? ?]; discriminate|].
    intros Hl. apply Hr in Hl as [? ?]. discriminate.
Qed.

(** X5. A complete frame decodes the same whatever follows it in the
    buffer: when the size field says [size >= 10] and the buffer holds the
    [size + 4] bytes of the frame, bytes appended after them change neither
    the id, nor the type, nor the payload read.  A second packet delivered
    in the same buffer is never looked at. *)
Theorem decoders_ignore_trailing b rest size :
  readInt32LE (subarray b 0 4) = Normal size ->
  10 <= size -> size + 4 <= byteLength b ->
  getId (b ++ rest) = getId b
  /\ getType (b ++ rest) = getType b
  /\ getPayload (b ++ rest) = getPayload b.
Proof.
  unfold byteLength. intros Hsize Hmin Hlen.
  unfold getId, getType, getPayload.
  change 0 with (Z.of_nat 0) in *. change 4 with (Z.of_nat 4) in *.
  change 8 with (Z.of_nat 8). change 12 with (Z.of_nat 12).
  rewrite !subarray_app_l by lia. rewrite Hsize.
  cbn [mbind completion_bind mret completion_ret].
  replace (Z.of_nat 12 + (size - 10)) with (Z.of_nat (Z.to_nat (size + 2)))
    by lia.
  rewrite subarray_app_l by lia. repeat split.
Qed.

Lemma decoders_ignore_trailing_witness :
  readInt32LE (subarray ok_answer 0 4) = Normal 12
  /\ 10 <= 12 /\ 12 + 4 <= byteLength ok_answer
  /\ getId (ok_answer ++ auth_refusal) = getId ok_answer
  /\ getType (ok_answer ++ auth_refusal) = getType ok_answer
  /\ getPayload (ok_answer ++ auth_refusal) = getPayload ok_answer.
Proof.
  assert (10 <= 12) as H2 by lia.
  assert (12 + 4 <= byteLength ok_answer) as H3 by (vm_compute; discriminate).
  split; [reflexivity|]. split; [exact H2|]. split; [exact H3|].
  exact (decoders_ignore_trailing ok_answer auth_refusal 12 eq_refl H2 H3).
Defined.

(** X6. [getPayload] never fails on a short payload.  With a size field
    [size >= 10] it returns the [size - 10] bytes after offset 12 or, when
    the buffer stops earlier, the bytes that are there; with a size field
    from -2 to 9 it returns the empty string. *)
Theorem getPayload_available b size :
  readInt32LE (subarray b 0 4) = Normal size ->
  (10 <= size ->
   getPayload b
   = Normal (toString_ascii (take (Z.to_nat (size - 10)) (drop 12 b))))
  /\ (-2 <= size < 10 -> getPayload b = Normal []).
Proof.
  intros Hsize. unfold getPayload. rewrite Hsize.
  cbn [mbind completion_bind mret completion_ret]. split.
  - intros Hmin.
    replace (12 + (size - 10)) with (Z.of_nat (Z.to_nat (size + 2))) by lia.
    change 12 with (Z.of_nat 12). rewrite subarray_nat by lia.
    do 3 f_equal. lia.
  - intros Hrange.
    replace (12 + (size - 10)) with (Z.of_nat (Z.to_nat (size + 2))) by lia.
    change 12 with (Z.of_nat 12).
    replace (subarray b (Z.of_nat 12) (Z.of_nat (Z.to_nat (size + 2))))
      with (@nil Z); [reflexivity|].
    symmetry. apply length_zero_iff_nil. rewrite length_subarray. lia.
Qed.

Lemma getPayload_available_witness :
  readInt32LE (subarray [12; 0; 0; 0; 57; 5; 0; 0; 0; 0; 0; 0; 79] 0 4)
  = Normal 12
  /\ (10 <= 12 ->
      getPayload [12; 0; 0; 0; 57; 5; 0; 0; 0; 0; 0; 0; 79]
      = Normal (toString_ascii
                  (take (Z.to_nat (12 - 10))
                     (drop 12 [12; 0; 0; 0; 57; 5; 0; 0; 0; 0; 0; 0; 79]))))
  /\ getPayload [12; 0; 0; 0; 57; 5; 0; 0; 0; 0; 0; 0; 79] = Normal [79].
Proof.
  split; [reflexivity|]. split; [|reflexivity].
  exact (proj1 (getPayload_available
                  [12; 0; 0; 0; 57; 5; 0; 0; 0; 0; 0; 0; 79] 12 eq_refl)).
Defined.

Lemma toInt32_shiftl24 x :
  0 <= x < 256 ->
  toInt32 (Z.shiftl x 24)
  = if x <? 128 then x * 16777216 else x * 16777216 - 4294967296.
Proof.
  intros Hx. unfold toInt32. rewrite Z.shiftl_mul_pow2 by lia.
  change (2 ^ 24) with 16777216.
  destruct (Z.ltb_spec x 128).
  - rewrite Z.mod_small by lia. lia.
  - replace (x * 16777216 + 2147483648)
      with (x * 16777216 - 2147483648 + 1 * 4294967296) by lia.
    rewrite Z.mod_add by lia. rewrite Z.mod_small by lia. lia.
Qed.

(** Four bytes are the [writeInt32LE] bytes of what [readInt32LE] reads in
    them. *)
Lemma le32_readInt32LE (x0 x1 x2 x3 : Z) :
  is_bytes [x0; x1; x2; x3] ->
  exists v, readInt32LE [x0; x1; x2; x3] = Normal v
            /\ is_int32 v /\ le32 v = [x0; x1; x2; x3].
Proof.
  intros Hb.
  inversion Hb as [|? ? H0 Hb1]; subst. inversion Hb1 as [|? ? H1 Hb2]; subst.
  inversion Hb2 as [|? ? H2 Hb3]; subst. inversion Hb3 as [|? ? H3 _]; subst.
  eexists. split; [reflexivity|].
  rewrite toInt32_shiftl24 by assumption.
  change (2 ^ 8) with 256. change (2 ^ 16) with 65536.
  unfold is_int32, int32_min, int32_max, le32.
  rewrite !toUint8_mod, !Z.shiftr_div_pow2 by lia.
  change (2 ^ 8) with 256. change (2 ^ 16) with 65536.
  change (2 ^ 24) with 16777216.
  destruct (Z.ltb_spec x3 128); (split; [lia|]);
    repeat f_equal; Z.div_mod_to_equations; lia.
Qed.

Lemma toString_ascii_fixed p : is_ascii p -> toString_ascii p = p.
Proof. intros Hp. now apply fmap_mask_fixed. Qed.

Lemma from_ascii_fixed p : is_ascii p -> from_ascii p = p.
Proof.
  unfold is_ascii, from_ascii. induction 1 as [|c p Hc _ IH]; [reflexivity|].
  cbn. rewrite IH. f_equal. change (Z.land c 255) with (toUint8 c).
  rewrite toUint8_mod. apply Z.mod_small. lia.
Qed.

(** X7. Decoding then encoding.  A buffer of bytes that is one frame (the
    size field is the length minus 4, the id is 1337, the payload bytes are
    7-bit and the last two bytes are null) is rebuilt by [createPacket] from
    the type and the payload the decoders read in it. *)
Theorem createPacket_of_decoded b :
  is_bytes b -> (14 <= length b)%nat ->
  readInt32LE (subarray b 0 4) = Normal (byteLength b - 4) ->
  getId b = Normal packetId ->
  is_ascii (take (length b - 14) (drop 12 b)) ->
  drop (length b - 2) b = [0; 0] ->
  exists t p, getType b = Normal t
              /\ getPayload b = Normal p
              /\ createPacket t p = Normal b.
Proof.
  intros Hbytes Hlen Hsize Hid Hascii Htail.
  destruct b as [|s0 [|s1 [|s2 [|s3 [|i0 [|i1 [|i2 [|i3 [|t0 [|t1 [|t2 [|t3
    rest]]]]]]]]]]]]; cbn [length] in Hlen; try lia.
  unfold is_bytes in Hbytes.
  change (s0 :: s1 :: s2 :: s3 :: i0 :: i1 :: i2 :: i3 :: t0 :: t1 :: t2
             :: t3 :: rest)
    with ([s0; s1; s2; s3] ++ [i0; i1; i2; i3] ++ [t0; t1; t2; t3] ++ rest)
    in *.
  rewrite !Forall_app in Hbytes. destruct Hbytes as (Hs & Hi & Ht & Hrest).
  destruct (le32_readInt32LE s0 s1 s2 s3 Hs) as (size & Hrs & Hsize32 & Hsb).
  destruct (le32_readInt32LE i0 i1 i2 i3 Hi) as (id & Hri & _ & Hib).
  destruct (le32_readInt32LE t0 t1 t2 t3 Ht) as (t & Hrt & Ht32 & Htb).
  set (b := [s0; s1; s2; s3] ++ [i0; i1; i2; i3] ++ [t0; t1; t2; t3] ++ rest)
    in *.
  assert (length b = (12 + length rest)%nat) as Hb by reflexivity.
  assert (subarray b 0 4 = [s0; s1; s2; s3]) as E0.
  { change 0 with (Z.of_nat 0). change 4 with (Z.of_nat 4).
    rewrite subarray_nat by lia. reflexivity. }
  assert (subarray b 4 8 = [i0; i1; i2; i3]) as E4.
  { change 4 with (Z.of_nat 4). change 8 with (Z.of_nat 8).
    rewrite subarray_nat by lia. reflexivity. }
  assert (subarray b 8 12 = [t0; t1; t2; t3]) as E8.
  { change 8 with (Z.of_nat 8). change 12 with (Z.of_nat 12).
    rewrite subarray_nat by lia. reflexivity. }
  rewrite E0, Hrs in Hsize. injection Hsize as Hsize.
  unfold getId in Hid. rewrite E4, Hri in Hid. injection Hid as Hid.
  unfold byteLength in Hsize. subst size id.
  set (p := take (length rest - 2) rest).
  assert (is_ascii p) as Hp.
  { subst p. replace (length rest - 2)%nat with (length b - 14)%nat by lia.
    exact Hascii. }
  assert (rest = p ++ [0; 0]) as Hrest_eq.
  { subst p. rewrite <- (take_drop (length rest - 2) rest) at 1. f_equal.
    replace (length b - 2)%nat with (12 + (length rest - 2))%nat in Htail
      by lia.
    exact Htail. }
  assert (length p = (length rest - 2)%nat) as Hplen.
  { subst p. rewrite length_take. lia. }
  exists t, p. split; [unfold getType; now rewrite E8|].
  split.
  - unfold getPayload. rewrite E0, Hrs.
    cbn [mbind completion_bind mret completion_ret]. f_equal.
    replace (12 + (Z.of_nat (length b) - 4 - 10))
      with (Z.of_nat (12 + length p)) by lia.
    change 12 with (Z.of_nat 12). rewrite subarray_nat by lia.
    replace (12 + length p - 12)%nat with (length rest - 2)%nat by lia.
    change (drop 12 b) with rest. fold p. now apply toString_ascii_fixed.
  - rewrite createPacket_layout; [|assumption|].
    + f_equal. unfold packet_layout.
      replace (10 + Z.of_nat (length p)) with (Z.of_nat (length b) - 4) by lia.
      rewrite Hsb, Hib, Htb, from_ascii_fixed by assumption.
      subst b. now rewrite Hrest_eq.
    + unfold fits_packet. unfold is_int32 in Hsize32. lia.
Qed.

Lemma createPacket_of_decoded_witness :
  is_bytes ok_answer /\ (14 <= length ok_answer)%nat
  /\ readInt32LE (subarray ok_answer 0 4) = Normal (byteLength ok_answer - 4)
  /\ getId ok_answer = Normal packetId
  /\ is_ascii (take (length ok_answer - 14) (drop 12 ok_answer))
  /\ drop (length ok_answer - 2) ok_answer = [0; 0]
  /\ exists t p, getType ok_answer = Normal t
                 /\ getPayload ok_answer = Normal p
                 /\ createPacket t p = Normal ok_answer.
Proof.
  assert (is_bytes ok_answer) as H1
    by (apply (bool_decide_unpack _); vm_compute; exact I).
  assert (14 <= length ok_answer)%nat as H2 by (cbn; lia).
  assert (is_ascii (take (length ok_answer - 14) (drop 12 ok_answer))) as H5
    by (apply (bool_decide_unpack _); vm_compute; exact I).
  split; [exact H1|]. split; [exact H2|]. split; [reflexivity|].
  split; [reflexivity|]. split; [exact H5|]. split; [reflexivity|].
  exact (createPacket_of_decoded ok_answer H1 H2 eq_refl eq_refl H5 eq_refl).
Defined.

End CodecEdges.

(** * Properties of the promise store *)

Section Promises.

Implicit Types (p q : nat) (s st : promise) (ps : list promise).

Lemma length_settle_in p s ps : length (settle_in p s ps) = length ps.
Proof.
  unfold settle_in. destruct (ps !! p) as [[| |]|]; try reflexivity.
  apply length_insert.
Qed.

Lemma settle_in_pending p s ps :
  ps !! p = Some Pending -> settle_in p s ps !! p = Some s.
Proof.
  intros H. unfold settle_in. rewrite H.
  apply list_lookup_insert_eq. now apply lookup_lt_Some in H.
Qed.

Lemma settle_in_other p q s ps : p <> q -> settle_in p s ps !! q = ps !! q.
Proof.
  intros Hne. unfold settle_in. destruct (ps !! p) as [[| |]|]; try reflexivity.
  now apply list_lookup_insert_ne.
Qed.

(** A settled promise stays as it is, whatever is settled afterwards. *)
Lemma settle_in_settled p q s st ps :
  ps !! q = Some st -> st <> Pending -> settle_in p s ps !! q = Some st.
Proof.
  intros Hq Hst. destruct (decide (p = q)) as [->|Hne].
  - unfold settle_in. rewrite Hq. destruct st; congruence.
  - now rewrite settle_in_other.
Qed.

End Promises.

(** * Properties of the session *)

Section Session.

Implicit Types (w : World) (b buffer : Buffer) (p q : nat).

Lemma readInt32LE_defined b :
  (4 <= length b)%nat -> exists v, readInt32LE b = Normal v.
Proof.
  destruct b as [|? [|? [|? [|? ?]]]]; cbn; try lia. intros _. eauto.
Qed.

Lemma readInt32LE_length b v : readInt32LE b = Normal v -> (4 <= length b)%nat.
Proof.
  destruct b as [|? [|? [|? [|? ?]]]]; cbn; try discriminate. lia.
Qed.

Lemma getId_length b v : getId b = Normal v -> (8 <= length b)%nat.
Proof.
  unfold getId. intros H. apply readInt32LE_length in H.
  destruct (decide (8 <= length b)%nat) as [|Hlt]; [assumption|exfalso].
  revert H. unfold subarray, byteLength, adjustOffset.
  rewrite length_take, length_drop.
  repeat match goal with
         | |- context [?x =? ?y] => destruct (Z.eqb_spec x y)
         | |- context [?x <? ?y] => destruct (Z.ltb_spec x y)
         end; lia.
Qed.

Lemma getPayload_defined b :
  (4 <= length b)%nat -> exists payload, getPayload b = Normal payload.
Proof.
  intros Hb. unfold getPayload.
  change 0 with (Z.of_nat 0). change 4 with (Z.of_nat 4).
  rewrite subarray_slice by lia.
  destruct (readInt32LE_defined (take (4 - 0) (drop 0 b))) as [v ->].
  - rewrite length_take, length_drop. lia.
  - cbn. eauto.
Qed.

(** Unfolding the monad on a world: the binds become matches on pairs. *)
Ltac run_js :=
  unfold call, resolve, reject, settle, lift, get, modify, throw;
  unfold mbind, mret, JS_bind, JS_ret;
  cbn -[str settle_in createPacket getPayload getId packet_layout].

(** Reading a variable of a world that was built by assignments. *)
Ltac fields :=
  cbn [client isAuthenticated isAuthenticating rconPassword connectResolve
       connectReject sendResolve sendReject promises sockets
       set_client set_isAuthenticated set_isAuthenticating set_rconPassword
       set_connectResolve set_connectReject set_sendResolve set_sendReject
       set_promises set_sockets] in *.

(** The listeners, as equations between worlds. *)

Lemma handleDataResponse_eq b w payload :
  getPayload b = Normal payload ->
  handleDataResponse b w
  = (Normal tt,
     match sendResolve w with
     | Some p =>
         set_promises (settle_in p (Fulfilled (VString payload)) (promises w)) w
     | None => w
     end).
Proof.
  intros Hb. unfold handleDataResponse. run_js.
  destruct (sendResolve w); [|reflexivity]. now rewrite Hb.
Qed.

Lemma handleAuthResponse_match b w p :
  getId b = Normal packetId -> connectResolve w = Some p ->
  handleAuthResponse b w
  = (Normal tt,
     set_promises (settle_in p (Fulfilled VUndefined) (promises w))
       (set_isAuthenticated true (set_isAuthenticating false w))).
Proof.
  intros Hb Hp.
  unfold handleAuthResponse. run_js. rewrite Hb. cbn. now rewrite Hp.
Qed.

Lemma handleAuthResponse_mismatch b w p id :
  getId b = Normal id -> id <> packetId -> connectReject w = Some p ->
  handleAuthResponse b w
  = (Normal tt,
     set_promises
       (settle_in p (Rejected (VString (str "RCON authentication failed")))
          (promises w))
       (set_isAuthenticated false (set_isAuthenticating false w))).
Proof.
  intros Hb Hid Hp.
  unfold handleAuthResponse. run_js. rewrite Hb.
  destruct (Z.eqb_spec id packetId); [contradiction|].
  cbn -[str settle_in]. now rewrite Hp.
Qed.

Lemma handleData_authenticating b w :
  isAuthenticating w = true ->
  handleData b w
  = match handleAuthResponse b w with
    | (Normal _, w') => handleDataResponse b w'
    | (Throw e, w') => (Throw e, w')
    end.
Proof.
  intros Hw. unfold handleData. run_js. rewrite Hw.
  destruct (handleAuthResponse b w) as [[[]|e] w']; reflexivity.
Qed.

Lemma handleData_idle b w :
  isAuthenticating w = false -> handleData b w = handleDataResponse b w.
Proof. intros Hw. unfold handleData. run_js. now rewrite Hw. Qed.

Lemma run_snoc trace a w : run (trace ++ [a]) w = step a (run trace w).
Proof. unfold run. now rewrite foldl_app. Qed.

Lemma step_event i ev w : step (Event i ev) w = snd (emit i ev w).
Proof. reflexivity. Qed.

(** A socket that [connect] set up calls exactly the listener of the
    event. *)
Lemma emit_listener i ev w s :
  sockets w !! i = Some s ->
  sock_listeners s = [close_ev; data_ev; connect_ev; error_ev] ->
  emit i ev w = listener ev w.
Proof.
  intros Hs Hl. unfold emit. rewrite Hs, Hl.
  destruct ev; cbn [dispatch name_of];
    match goal with |- _ = ?l w => generalize l end;
    intros l; run_js; repeat case_decide; try congruence;
    destruct (l w) as [[[]|?] ?]; reflexivity.
Qed.

Lemma connect_init host port password :
  connect host port password init
  = (Normal 0%nat, connecting host port password).
Proof. reflexivity. Qed.

Lemma connect_then_connected host port password :
  fits_packet password ->
  run [DoConnect host port password; Event 0%nat Connected] init
  = handshake_sent host port password.
Proof.
  intros Hp. cbn [run foldl step].
  rewrite connect_init. cbn [snd].
  erewrite emit_listener by reflexivity.
  cbn [listener]. unfold handleConnect. run_js.
  rewrite createPacket_layout; [reflexivity| |assumption].
  apply (bool_decide_unpack _). vm_compute. exact I.
Qed.

(** The reply to AUTH carries the id 1337. *)
Lemma handleData_on_match w b p :
  Authenticating w -> connectResolve w = Some p ->
  promises w !! p = Some Pending ->
  getId b = Normal packetId ->
  exists w', handleData b w = (Normal tt, w')
             /\ isAuthenticated w' = true
             /\ isAuthenticating w' = false
             /\ promises w' !! p = Some (Fulfilled VUndefined).
Proof.
  intros Hw Hp Hpending Hb.
  destruct (getPayload_defined b) as [payload Hpayload].
  { apply getId_length in Hb. lia. }
  rewrite handleData_authenticating by assumption.
  rewrite (handleAuthResponse_match b w p Hb Hp).
  rewrite (handleDataResponse_eq _ _ payload Hpayload).
  eexists. split; [reflexivity|]. fields.
  destruct (sendResolve w) as [q|]; fields; repeat split; try reflexivity.
  - apply settle_in_settled with (st := Fulfilled VUndefined); [|discriminate].
    now apply settle_in_pending.
  - now apply settle_in_pending.
Qed.

(** C3. In the Authenticating state, with the connect operation pending, a
    'data' event whose buffer decodes to the id 1337 makes the listener end
    normally with [isAuthenticated] true, [isAuthenticating] false and the
    connect promise fulfilled with undefined.  In particular, on a new
    session, [connect], the 'connect' event and then any reply with the id
    1337 fulfill the promise [connect] returned, after the AUTH packet of
    the password was written to the socket. *)
Theorem handleData_authentication_succeeds :
  (forall w b p,
     Authenticating w -> connectResolve w = Some p ->
     promises w !! p = Some Pending ->
     getId b = Normal packetId ->
     exists w', handleData b w = (Normal tt, w')
                /\ isAuthenticated w' = true
                /\ isAuthenticating w' = false
                /\ promises w' !! p = Some (Fulfilled VUndefined))
  /\ (forall host port password reply,
        fits_packet password -> getId reply = Normal packetId ->
        exists authPacket w1 w2,
          connect host port password init = (Normal 0%nat, w1)
          /\ createPacket (AUTH PACKET_TYPE) password = Normal authPacket
          /\ sock_written <$> sockets (step (Event 0%nat Connected) w1) !! 0%nat
             = Some [authPacket]
          /\ run [Event 0%nat Connected; Event 0%nat (Data reply)] w1 = w2
          /\ isAuthenticated w2 = true
          /\ promises w2 !! 0%nat = Some (Fulfilled VUndefined)).
Proof.
  split; [exact handleData_on_match|].
  intros host port password reply Hfits Hreply.
  pose proof (connect_then_connected host port password Hfits) as Hrun.
  cbn [run foldl] in Hrun.
  change (step (DoConnect host port password) init)
    with (connecting host port password) in Hrun.
  destruct (handleData_on_match (handshake_sent host port password) reply 0%nat)
    as (w2 & Hdata & Hauth & _ & Hpromise); try reflexivity; try assumption.
  exists (packet_layout (AUTH PACKET_TYPE) password),
         (connecting host port password), w2.
  split; [apply connect_init|].
  split; [apply createPacket_layout; [|assumption];
          apply (bool_decide_unpack _); vm_compute; exact I|].
  rewrite Hrun. split; [reflexivity|].
  split; [|now split].
  cbn [run foldl]. rewrite Hrun. rewrite step_event.
  erewrite emit_listener by reflexivity.
  change (listener (Data reply)) with (handleData reply). now rewrite Hdata.
Qed.

Lemma handleData_authentication_succeeds_witness :
  Authenticating handshake_example
  /\ connectResolve handshake_example = Some 0%nat
  /\ promises handshake_example !! 0%nat = Some Pending
  /\ getId auth_reply = Normal packetId
  /\ exists w', handleData auth_reply handshake_example = (Normal tt, w')
                /\ isAuthenticated w' = true
                /\ isAuthenticating w' = false
                /\ promises w' !! 0%nat = Some (Fulfilled VUndefined).
Proof.
  assert (Authenticating handshake_example) as H1 by reflexivity.
  assert (getId auth_reply = Normal packetId) as H4 by reflexivity.
  split; [exact H1|]. split; [reflexivity|]. split; [reflexivity|].
  split; [exact H4|].
  exact (proj1 handleData_authentication_succeeds
           handshake_example auth_reply 0%nat H1 eq_refl eq_refl H4).
Defined.

(** C4. In the Authenticating state, with the connect operation pending, a
    'data' event whose buffer decodes to an id other than 1337 makes the
    listener end normally with [isAuthenticated] false, [isAuthenticating]
    false and the connect promise rejected with the reason
    "RCON authentication failed". *)
Theorem handleData_authentication_fails w b p id :
  Authenticating w -> connectReject w = Some p ->
  promises w !! p = Some Pending ->
  getId b = Normal id -> id <> packetId ->
  exists w', handleData b w = (Normal tt, w')
             /\ isAuthenticated w' = false
             /\ isAuthenticating w' = false
             /\ promises w' !! p
                = Some (Rejected (VString (str "RCON authentication failed"))).
Proof.
  intros Hw Hp Hpending Hb Hid.
  destruct (getPayload_defined b) as [payload Hpayload].
  { apply getId_length in Hb. lia. }
  rewrite handleData_authenticating by assumption.
  rewrite (handleAuthResponse_mismatch b w p id Hb Hid Hp).
  rewrite (handleDataResponse_eq _ _ payload Hpayload).
  eexists. split; [reflexivity|]. fields.
  destruct (sendResolve w) as [q|]; fields; repeat split; try reflexivity.
  - eapply settle_in_settled; [|discriminate]. now apply settle_in_pending.
  - now apply settle_in_pending.
Qed.

Lemma handleData_authentication_fails_witness :
  Authenticating handshake_example
  /\ connectReject handshake_example = Some 0%nat
  /\ promises handshake_example !! 0%nat = Some Pending
  /\ getId auth_refusal = Normal (-1)
  /\ -1 <> packetId
  /\ exists w', handleData auth_refusal handshake_example = (Normal tt, w')
                /\ isAuthenticated w' = false
                /\ isAuthenticating w' = false
                /\ promises w' !! 0%nat
                   = Some (Rejected (VString (str "RCON authentication failed"))).
Proof.
  assert (Authenticating handshake_example) as H1 by reflexivity.
  assert (getId auth_refusal = Normal (-1)) as H4 by reflexivity.
  assert (-1 <> packetId) as H5 by discriminate.
  split; [exact H1|]. split; [reflexivity|]. split; [reflexivity|].
  split; [exact H4|]. split; [exact H5|].
  exact (handleData_authentication_fails handshake_example auth_refusal
           0%nat (-1) H1 eq_refl eq_refl H4 H5).
Defined.

(** The second testable property of authentication, on a new session: a
    reply with another id rejects the promise [connect] returned and leaves
    the session unauthenticated. *)
Corollary connect_rejects_on_mismatched_reply host port password reply id :
  fits_packet password -> getId reply = Normal id -> id <> packetId ->
  exists w,
    run [DoConnect host port password; Event 0%nat Connected;
         Event 0%nat (Data reply)] init = w
    /\ isAuthenticated w = false
    /\ promises w !! 0%nat
       = Some (Rejected (VString (str "RCON authentication failed"))).
Proof.
  intros Hfits Hreply Hid.
  pose proof (connect_then_connected host port password Hfits) as Hrun.
  eexists. split; [|split].
  - change [DoConnect host port password; Event 0%nat Connected;
            Event 0%nat (Data reply)]
      with ([DoConnect host port password; Event 0%nat Connected]
              ++ [Event 0%nat (Data reply)]).
    rewrite run_snoc, Hrun, step_event.
    erewrite emit_listener by reflexivity.
    change (listener (Data reply)) with (handleData reply).
    rewrite handleData_authenticating by reflexivity.
    rewrite (handleAuthResponse_mismatch reply
               (handshake_sent host port password) 0%nat id Hreply Hid eq_refl).
    reflexivity.
  - reflexivity.
  - reflexivity.
Qed.

(** C5. In the Ready state, with a send operation pending, a 'data' event
    whose buffer holds at least the four bytes of the size makes the
    listener end normally with that send promise fulfilled with
    [getPayload] of the buffer.  For one: after a successful connect,
    [send("info")] followed by a packet with the payload "info-response"
    fulfills the promise [send] returned with "info-response". *)
Theorem handleData_fulfills_send :
  (forall w b p,
     Ready w -> sendResolve w = Some p -> promises w !! p = Some Pending ->
     (4 <= length b)%nat ->
     exists payload w',
       getPayload b = Normal payload
       /\ handleData b w = (Normal tt, w')
       /\ promises w' !! p = Some (Fulfilled (VString payload)))
  /\ (exists reply answer p w,
        createPacket (AUTH_RESPONSE PACKET_TYPE) [] = Normal reply
        /\ createPacket (RESPONSE_VALUE PACKET_TYPE) (str "info-response")
           = Normal answer
        /\ scenario_connected
           = [DoConnect (str "127.0.0.1") 27015 (str "secret");
              Event 0%nat Connected; Event 0%nat (Data reply)]
        /\ send (str "info") (run scenario_connected init) = (Normal p, w)
        /\ promises w !! p = Some Pending
        /\ promises (step (Event 0%nat (Data answer)) w) !! p
           = Some (Fulfilled (VString (str "info-response")))).
Proof.
  split.
  - intros w b p [_ Hw] Hp Hpending Hb.
    destruct (getPayload_defined b Hb) as [payload Hpayload].
    exists payload. rewrite handleData_idle by assumption.
    rewrite (handleDataResponse_eq _ _ payload Hpayload), Hp.
    eexists. split; [exact Hpayload|]. split; [reflexivity|].
    cbn [promises set_promises]. now apply settle_in_pending.
  - exists auth_reply.
    exists (packet_layout (RESPONSE_VALUE PACKET_TYPE) (str "info-response")).
    exists 1%nat.
    exists (run (scenario_connected ++ [DoSend (str "info")]) init).
    split; [vm_compute; reflexivity|]. split; [vm_compute; reflexivity|].
    split; [reflexivity|]. split; [vm_compute; reflexivity|].
    split; vm_compute; reflexivity.
Qed.

Lemma handleData_fulfills_send_witness :
  Ready (run scenario_ready init)
  /\ sendResolve (run scenario_ready init) = Some 1%nat
  /\ promises (run scenario_ready init) !! 1%nat = Some Pending
  /\ (4 <= length ok_answer)%nat
  /\ exists payload w',
       getPayload ok_answer = Normal payload
       /\ handleData ok_answer (run scenario_ready init) = (Normal tt, w')
       /\ promises w' !! 1%nat = Some (Fulfilled (VString payload)).
Proof.
  assert (Ready (run scenario_ready init)) as H1 by (split; reflexivity).
  assert (4 <= length ok_answer)%nat as H4 by (cbn; lia).
  split; [exact H1|]. split; [reflexivity|]. split; [reflexivity|].
  split; [exact H4|].
  exact (proj1 handleData_fulfills_send (run scenario_ready init) ok_answer
           1%nat H1 eq_refl eq_refl H4).
Defined.

Lemma handleError_mapped e w p :
  mapped_errno e -> connectReject w = Some p ->
  exists cause,
    cause ∈ error_causes
    /\ handleError e w
       = (Normal tt,
          set_promises (settle_in p (Rejected (VString cause)) (promises w)) w).
Proof.
  unfold mapped_errno, error_causes. rewrite !elem_of_cons, elem_of_nil.
  intros He Hp. unfold handleError.
  repeat case_decide; run_js; rewrite ?Hp; cbn -[str settle_in].
  - exists (str "Remote host refused connection"). split; [|reflexivity].
    apply list_elem_of_here.
  - exists (str "Unable to connect to remote host"). split; [|reflexivity].
    apply list_elem_of_further, list_elem_of_here.
  - exists (str "Connection to remote host timed out"). split; [|reflexivity].
    do 2 apply list_elem_of_further. apply list_elem_of_here.
  - exfalso. intuition congruence.
Qed.

Lemma handleError_unmapped e w :
  ~ mapped_errno e -> handleError e w = (Normal tt, w).
Proof.
  unfold mapped_errno. rewrite !elem_of_cons, elem_of_nil.
  intros He. unfold handleError.
  repeat case_decide; try reflexivity; exfalso; intuition congruence.
Qed.

(** C8. An 'error' event whose errno is none of -4078, -3008, -4039 is
    swallowed: the listener returns and the world is the same, so nothing
    is rejected or resolved.  When the connect operation is pending, it is
    rejected after the event, with one of the three cause strings, if and
    only if the errno is one of the three. *)
Theorem handleError_rejects_iff_mapped e w :
  (~ mapped_errno e -> handleError e w = (Normal tt, w))
  /\ (forall p,
        connectReject w = Some p -> promises w !! p = Some Pending ->
        exists w', handleError e w = (Normal tt, w')
                   /\ ((exists cause, cause ∈ error_causes
                          /\ promises w' !! p = Some (Rejected (VString cause)))
                       <-> mapped_errno e)).
Proof.
  split; [apply handleError_unmapped|].
  intros p Hp Hpending. destruct (decide (mapped_errno e)) as [He|He].
  - destruct (handleError_mapped e w p He Hp) as (cause & Hcause & ->).
    eexists. split; [reflexivity|]. split; [tauto|]. intros _.
    exists cause. split; [assumption|].
    cbn [promises set_promises]. now apply settle_in_pending.
  - rewrite (handleError_unmapped e w He). exists w. split; [reflexivity|].
    split; [|tauto]. intros (cause & _ & Hrej). congruence.
Qed.

Lemma handleError_rejects_iff_mapped_witness :
  connectReject handshake_example = Some 0%nat
  /\ promises handshake_example !! 0%nat = Some Pending
  /\ exists w',
       handleError {| errno := Some (-4078) |} handshake_example
       = (Normal tt, w')
       /\ ((exists cause, cause ∈ error_causes
              /\ promises w' !! 0%nat = Some (Rejected (VString cause)))
           <-> mapped_errno {| errno := Some (-4078) |}).
Proof.
  split; [reflexivity|]. split; [reflexivity|].
  exact (proj2 (handleError_rejects_iff_mapped
                  {| errno := Some (-4078) |} handshake_example)
           0%nat eq_refl eq_refl).
Defined.

(** C9. A 'close' event without an error changes nothing: the listener
    returns and the world is the same, so no promise, pending or not, is
    settled.  A 'close' event with an error rejects the send operation when
    one is pending, with the reason "Unable to connect to remote host", and
    leaves every other promise as it was; with no send operation recorded it
    changes nothing. *)
Theorem handleClose_rejects_pending_send w :
  handleClose false w = (Normal tt, w)
  /\ (sendReject w = None -> handleClose true w = (Normal tt, w))
  /\ (forall p,
        sendReject w = Some p -> promises w !! p = Some Pending ->
        exists w',
          handleClose true w = (Normal tt, w')
          /\ promises w' !! p
             = Some (Rejected (VString (str "Unable to connect to remote host")))
          /\ forall q, q <> p -> promises w' !! q = promises w !! q).
Proof.
  split; [reflexivity|]. split.
  - intros Hnone. unfold handleClose. run_js. now rewrite Hnone.
  - intros p Hp Hpending. unfold handleClose. run_js. rewrite Hp.
    eexists. split; [reflexivity|]. cbn [promises set_promises]. split.
    + now apply settle_in_pending.
    + intros q Hq. now apply settle_in_other.
Qed.

Lemma handleClose_rejects_pending_send_witness :
  sendReject (run scenario_ready init) = Some 1%nat
  /\ promises (run scenario_ready init) !! 1%nat = Some Pending
  /\ exists w',
       handleClose true (run scenario_ready init) = (Normal tt, w')
       /\ promises w' !! 1%nat
          = Some (Rejected (VString (str "Unable to connect to remote host")))
       /\ forall q, q <> 1%nat ->
                    promises w' !! q = promises (run scenario_ready init) !! q.
Proof.
  split; [reflexivity|]. split; [reflexivity|].
  exact (proj2 (proj2 (handleClose_rejects_pending_send
                         (run scenario_ready init)))
           1%nat eq_refl eq_refl).
Defined.

(** The promise [new Promise] creates is the last of the store. *)
Lemma lookup_new_promise (ps : list promise) :
  (ps ++ [Pending]) !! length ps = Some Pending.
Proof. apply list_lookup_middle. reflexivity. Qed.

(** C6, as the code has it.  On a session that is not authenticated,
    [send(command)] returns a promise rejected with the reason
    "RCON client not authenticated"; and when the session holds a socket
    (connect was called), the EXEC_COMMAND packet of the command is still
    appended to the writes of that socket. *)
Theorem send_unauthenticated_rejects_and_writes w command :
  isAuthenticated w = false -> fits_packet command ->
  exists packet p w',
    createPacket (EXEC_COMMAND PACKET_TYPE) command = Normal packet
    /\ send command w = (Normal p, w')
    /\ promises w' !! p
       = Some (Rejected (VString (str "RCON client not authenticated")))
    /\ forall i s,
         client w = Some i -> sockets w !! i = Some s ->
         exists s', sockets w' !! i = Some s'
                    /\ sock_written s' = sock_written s ++ [packet].
Proof.
  intros Hw Hfits.
  assert (createPacket (EXEC_COMMAND PACKET_TYPE) command
          = Normal (packet_layout (EXEC_COMMAND PACKET_TYPE) command)) as Hpacket.
  { apply createPacket_layout; [|assumption].
    apply (bool_decide_unpack _). vm_compute. exact I. }
  exists (packet_layout (EXEC_COMMAND PACKET_TYPE) command).
  exists (length (promises w)).
  unfold send, newPromise, client_write, on_client. run_js.
  change (createPacket 2 command)
    with (createPacket (EXEC_COMMAND PACKET_TYPE) command).
  rewrite Hw, Hpacket. cbn -[str settle_in packet_layout].
  pose proof (settle_in_pending (length (promises w))
                (Rejected (VString (str "RCON client not authenticated")))
                _ (lookup_new_promise (promises w))) as Hrejected.
  destruct (client w) as [i|]; eexists;
    (split; [reflexivity|]); (split; [reflexivity|]);
    cbn [promises sockets set_promises set_sockets];
    (split; [|intros i' s Hi Hs]); try discriminate.
  - exact Hrejected.
  - simplify_eq. fields. rewrite list_lookup_alter_eq, Hs. cbn. eauto.
  - eapply settle_in_settled; [exact Hrejected|discriminate].
Qed.

Lemma send_unauthenticated_rejects_and_writes_witness :
  isAuthenticated handshake_example = false /\ fits_packet (str "status")
  /\ exists packet p w',
       createPacket (EXEC_COMMAND PACKET_TYPE) (str "status") = Normal packet
       /\ send (str "status") handshake_example = (Normal p, w')
       /\ promises w' !! p
          = Some (Rejected (VString (str "RCON client not authenticated")))
       /\ forall i s,
            client handshake_example = Some i ->
            sockets handshake_example !! i = Some s ->
            exists s', sockets w' !! i = Some s'
                       /\ sock_written s' = sock_written s ++ [packet].
Proof.
  assert (fits_packet (str "status")) as H2
    by (apply (bool_decide_unpack _); vm_compute; exact I).
  split; [reflexivity|]. split; [exact H2|].
  exact (send_unauthenticated_rejects_and_writes handshake_example
           (str "status") eq_refl H2).
Defined.

(** C6, as stated, fails on a session that was never connected: it is not
    authenticated, [send("status")] rejects as claimed, but there is no
    socket, and no socket of the world after the call holds the packet. *)
Lemma send_never_connected_writes_nothing :
  isAuthenticated init = false
  /\ exists packet p w',
       createPacket (EXEC_COMMAND PACKET_TYPE) (str "status") = Normal packet
       /\ send (str "status") init = (Normal p, w')
       /\ promises w' !! p
          = Some (Rejected (VString (str "RCON client not authenticated")))
       /\ sockets w' = []
       /\ ~ exists i s, sockets w' !! i = Some s /\ packet ∈ sock_written s.
Proof.
  split; [reflexivity|]. do 3 eexists.
  split; [vm_compute; reflexivity|]. split; [vm_compute; reflexivity|].
  split; [reflexivity|]. split; [reflexivity|].
  intros (i & s & Hs & _). cbn in Hs. discriminate.
Qed.

(** C7, on the code: [disconnect()] on a session that was never
    connected.  [client] is [null], [client.destroy()] throws inside the
    executor, and the promise returned is rejected with the TypeError. *)
Theorem disconnect_never_connected_rejects :
  client init = None
  /\ disconnect init
     = (Normal 0%nat, set_promises [Rejected (VError TypeError)] init)
  /\ promises (snd (disconnect init)) !! 0%nat
     = Some (Rejected (VError TypeError)).
Proof.
  split; [reflexivity|]. split; reflexivity.
Qed.

(** On a session that holds a socket, [disconnect()] does what section 4.2
    says: the socket is destroyed, both flags are false and the promise
    returned is fulfilled. *)
Lemma disconnect_connected_fulfills w i :
  client w = Some i ->
  exists p w',
    disconnect w = (Normal p, w')
    /\ promises w' !! p = Some (Fulfilled VUndefined)
    /\ isAuthenticated w' = false /\ isAuthenticating w' = false
    /\ forall s, sockets w !! i = Some s ->
                 exists s', sockets w' !! i = Some s'
                            /\ sock_destroyed s' = true.
Proof.
  intros Hi. exists (length (promises w)).
  unfold disconnect, newPromise, client_destroy, on_client. run_js.
  rewrite Hi. cbn -[settle_in]. eexists. split; [reflexivity|].
  fields. split; [apply settle_in_pending, lookup_new_promise|].
  split; [reflexivity|]. split; [reflexivity|].
  intros s Hs. rewrite list_lookup_alter_eq, Hs. cbn. eauto.
Qed.

(** ** The invariant of the session *)

Lemma wf_init : wf init.
Proof. split; cbn; intros; congruence. Qed.

Lemma alter_eq_nil (f : Socket -> Socket) i (l : list Socket) :
  alter f i l = [] <-> l = [].
Proof.
  split; [|now intros ->].
  intros H. apply (f_equal length) in H. rewrite length_alter in H.
  now destruct l.
Qed.

Lemma snoc_ne_nil (l : list Socket) (s : Socket) : l ++ [s] <> [].
Proof. now destruct l. Qed.

Ltac wf_fields :=
  split; fields;
  rewrite ?length_settle_in, ?length_app, ?alter_eq_nil; cbn [length];
  intros;
  repeat match goal with
         | H : Some _ = Some _ |- _ => injection H as H; subst
         end;
  try congruence; try lia; eauto using snoc_ne_nil.

Ltac split_cases :=
  repeat (match goal with
          | |- context [match ?x with _ => _ end] =>
              lazymatch type of x with
              | prod _ _ => fail
              | _ => destruct x eqn:?
              end
          end;
          cbn -[str settle_in createPacket getPayload getId packet_layout]).

Ltac live_fields :=
  split; [wf_fields | fields; rewrite ?alter_eq_nil; auto using snoc_ne_nil].

Lemma handleAuthResponse_live b w :
  live w -> live (snd (handleAuthResponse b w)).
Proof.
  intros [Hw Hsock].
  unfold handleAuthResponse. run_js. split_cases; cbn [snd]; destruct Hw; live_fields.
Qed.

Lemma handleDataResponse_live b w :
  live w -> live (snd (handleDataResponse b w)).
Proof.
  intros [Hw Hsock].
  unfold handleDataResponse. run_js. split_cases; cbn [snd]; destruct Hw; live_fields.
Qed.

Lemma handleData_live b w : live w -> live (snd (handleData b w)).
Proof.
  intros Hw. destruct (isAuthenticating w) eqn:Hauth.
  - rewrite handleData_authenticating by assumption.
    pose proof (handleAuthResponse_live b w Hw) as Hw'.
    destruct (handleAuthResponse b w) as [[[]|e] w']; cbn [snd] in *.
    + now apply handleDataResponse_live.
    + assumption.
  - rewrite handleData_idle by assumption. now apply handleDataResponse_live.
Qed.

Lemma listener_live ev w : live w -> live (snd (listener ev w)).
Proof.
  destruct ev as [hasError|buffer| |e]; cbn [listener];
    [| apply handleData_live | |];
    intros [Hw Hsock].
  - unfold handleClose. run_js. split_cases; cbn [snd]; destruct Hw; live_fields.
  - unfold handleConnect, client_write, on_client. run_js.
    split_cases; cbn [snd]; destruct Hw; live_fields.
  - unfold handleError. run_js. split_cases; cbn [snd]; destruct Hw; live_fields.
Qed.

Lemma dispatch_live names ev w : live w -> live (snd (dispatch names ev w)).
Proof.
  revert w. induction names as [|n names IH]; intros w Hw; [exact Hw|].
  cbn [dispatch]. unfold mbind, JS_bind. case_decide.
  - pose proof (listener_live ev w Hw) as Hw'.
    destruct (listener ev w) as [[[]|e] w']; cbn [snd] in *; auto.
  - unfold mret, JS_ret. auto.
Qed.

Lemma emit_wf i ev w : wf w -> wf (snd (emit i ev w)).
Proof.
  intros Hw. unfold emit. destruct (sockets w !! i) as [s|] eqn:Hs.
  - apply dispatch_live. split; [assumption|]. intros Hnil.
    rewrite Hnil in Hs. discriminate.
  - assumption.
Qed.

Ltac by_bounds :=
  try (intros ?; simplify_eq);
  repeat match goal with
         | Hb : (forall p, ?f = Some p -> (p < _)%nat), H : ?f = Some _ |- _ =>
             apply Hb in H
         end;
  lia.

Lemma connect_wf host port password w :
  wf w -> wf (snd (connect host port password w)).
Proof.
  intros [Hf Hc Hs Hcb Hsb Hd Hk Ha].
  unfold connect, newPromise, createConnection, client_on, on_client.
  run_js. wf_fields; by_bounds.
Qed.

Lemma send_wf command w : wf w -> wf (snd (send command w)).
Proof.
  intros Hw. unfold send, newPromise, client_write, on_client.
  run_js. split_cases; cbn [snd]; destruct Hw as [Hf Hc Hs Hcb Hsb Hd Hk Ha];
    wf_fields; by_bounds.
Qed.

Lemma disconnect_wf w : wf w -> wf (snd (disconnect w)).
Proof.
  intros Hw. unfold disconnect, newPromise, client_destroy, on_client.
  run_js. split_cases; cbn [snd]; destruct Hw as [Hf Hc Hs Hcb Hsb Hd Hk Ha];
    wf_fields; by_bounds.
Qed.

Lemma step_wf a w : wf w -> wf (step a w).
Proof.
  destruct a; cbn [step].
  - apply connect_wf.
  - apply send_wf.
  - apply disconnect_wf.
  - apply emit_wf.
Qed.

Theorem reachable_wf w : reachable w -> wf w.
Proof.
  induction 1 as [|a w _ IH]; [apply wf_init | now apply step_wf].
Qed.

Lemma reachable_run trace : reachable (run trace init).
Proof.
  induction trace as [|a trace IH] using rev_ind; [constructor|].
  rewrite run_snoc. now constructor.
Qed.

(** The flags exclude each other, so Ready is [isAuthenticated] alone. *)
Corollary reachable_ready w :
  reachable w -> isAuthenticated w = true -> Ready w.
Proof.
  intros Hw Hauth. split; [assumption|].
  now apply (wf_flags w (reachable_wf w Hw)).
Qed.

Lemma getId_defined b : (8 <= length b)%nat -> exists id, getId b = Normal id.
Proof.
  intros Hb. unfold getId.
  change 4 with (Z.of_nat 4). change 8 with (Z.of_nat 8).
  rewrite subarray_slice by lia. apply readInt32LE_defined.
  rewrite length_take, length_drop. lia.
Qed.

(** C10. In every reachable world with a send operation pending, a 'data'
    event whose buffer holds at least the size and the id makes the
    listener end normally with that send promise fulfilled with
    [getPayload] of the buffer, in the Authenticating state
    ([handleAuthResponse] runs first and settles the connect promise, then
    [handleDataResponse] runs all the same) as in any other. *)
Theorem handleData_always_fulfills_send w b p :
  reachable w -> sendResolve w = Some p -> promises w !! p = Some Pending ->
  (8 <= length b)%nat ->
  exists payload w',
    getPayload b = Normal payload
    /\ handleData b w = (Normal tt, w')
    /\ promises w' !! p = Some (Fulfilled (VString payload)).
Proof.
  intros Hreach Hp Hpending Hb.
  pose proof (reachable_wf w Hreach) as [Hf Hc Hs Hcb Hsb Hd Hk Ha].
  destruct (getPayload_defined b) as [payload Hpayload]; [lia|].
  exists payload. destruct (isAuthenticating w) eqn:Hauth.
  - destruct (Hk (Ha eq_refl)) as [c Hcr].
    assert (c <> p) as Hcp by (intros ->; now apply (Hd p)).
    destruct (getId_defined b Hb) as [id Hid].
    rewrite handleData_authenticating by assumption.
    destruct (decide (id = packetId)) as [->|Hne].
    + rewrite (handleAuthResponse_match b w c Hid Hcr).
      rewrite (handleDataResponse_eq _ _ payload Hpayload). fields. rewrite Hp.
      eexists. split; [assumption|]. split; [reflexivity|]. fields.
      apply settle_in_pending. now rewrite settle_in_other.
    + rewrite Hc in Hcr.
      rewrite (handleAuthResponse_mismatch b w c id Hid Hne Hcr).
      rewrite (handleDataResponse_eq _ _ payload Hpayload). fields. rewrite Hp.
      eexists. split; [assumption|]. split; [reflexivity|]. fields.
      apply settle_in_pending. now rewrite settle_in_other.
  - rewrite handleData_idle by assumption.
    rewrite (handleDataResponse_eq _ _ payload Hpayload), Hp.
    eexists. split; [assumption|]. split; [reflexivity|]. fields.
    now apply settle_in_pending.
Qed.

Lemma handleData_always_fulfills_send_witness :
  reachable (run scenario_reconnecting init)
  /\ Authenticating (run scenario_reconnecting init)
  /\ sendResolve (run scenario_reconnecting init) = Some 1%nat
  /\ promises (run scenario_reconnecting init) !! 1%nat = Some Pending
  /\ (8 <= length auth_reply)%nat
  /\ exists payload w',
       getPayload auth_reply = Normal payload
       /\ handleData auth_reply (run scenario_reconnecting init)
          = (Normal tt, w')
       /\ promises w' !! 1%nat = Some (Fulfilled (VString payload)).
Proof.
  assert (reachable (run scenario_reconnecting init)) as H1
    by apply reachable_run.
  assert (8 <= length auth_reply)%nat as H4 by (cbn; lia).
  split; [exact H1|]. split; [reflexivity|]. split; [reflexivity|].
  split; [reflexivity|]. split; [exact H4|].
  exact (handleData_always_fulfills_send (run scenario_reconnecting init)
           auth_reply 1%nat H1 eq_refl eq_refl H4).
Defined.

(** The bound on the buffer is needed.  A buffer that stops inside the id
    has a payload for [getPayload] (the empty one), but in the
    Authenticating state [getId] throws first: the listener ends by a
    RangeError with [isAuthenticating] cleared, and the pending send
    operation stays pending. *)
Example handleData_truncated_reply :
  getPayload [10; 0; 0; 0; 57; 5] = Normal []
  /\ handleData [10; 0; 0; 0; 57; 5] (run scenario_reconnecting init)
     = (Throw RangeError,
        set_isAuthenticating false (run scenario_reconnecting init))
  /\ promises (run scenario_reconnecting init) !! 1%nat = Some Pending.
Proof.
  split; [vm_compute; reflexivity|]. split; vm_compute; reflexivity.
Qed.

(** The concrete scenario of section 8: the AUTH packet of "secret" goes
    out, the reply fulfills [connect] with no value, the EXEC_COMMAND packet
    of "status" goes out, and the answer "OK" fulfills [send] with "OK". *)
Example scenario_status_ok :
  let w := run (scenario_ready ++ [Event 0%nat (Data ok_answer)]) init in
  getPayload ok_answer = Normal (str "OK")
  /\ promises w = [Fulfilled VUndefined; Fulfilled (VString (str "OK"))]
  /\ sock_written <$> sockets w !! 0%nat
     = Some [packet_layout (AUTH PACKET_TYPE) (str "secret");
             packet_layout (EXEC_COMMAND PACKET_TYPE) (str "status")]
  /\ Ready w.
Proof.
  split; [vm_compute; reflexivity|]. split; [vm_compute; reflexivity|].
  split; [vm_compute; reflexivity|]. split; vm_compute; reflexivity.
Qed.

(** After [disconnect] the session is no longer Ready and [send] rejects
    again. *)
Example send_after_disconnect_rejects :
  let w := run (scenario_connected ++ [DoDisconnect]) init in
  isAuthenticated w = false
  /\ fst (send (str "status") w) = Normal 2%nat
  /\ promises (snd (send (str "status") w)) !! 2%nat
     = Some (Rejected (VString (str "RCON client not authenticated"))).
Proof.
  split; [vm_compute; reflexivity|]. split; vm_compute; reflexivity.
Qed.

(** * More of the session *)

(** X8. What no reachable session does: it is never authenticated and
    authenticating at once; the resolve and reject variables of an operation
    always belong to one promise of the store; and the connect operation and
    the send operation are never the same promise. *)
Theorem session_invariant w :
  reachable w ->
  (isAuthenticated w = true -> isAuthenticating w = true -> False)
  /\ connectResolve w = connectReject w
  /\ sendResolve w = sendReject w
  /\ (forall p, connectResolve w = Some p ->
                is_Some (promises w !! p) /\ sendResolve w <> Some p)
  /\ (forall p, sendResolve w = Some p -> is_Some (promises w !! p)).
Proof.
  intros Hw. destruct (reachable_wf w Hw) as [Hf Hc Hs Hcb Hsb Hd Hk Ha].
  split; [intros H1 H2; apply Hf in H1; congruence|].
  split; [assumption|]. split; [assumption|]. split.
  - intros p Hp. split; [|now apply Hd].
    apply lookup_lt_is_Some. now apply Hcb.
  - intros p Hp. apply lookup_lt_is_Some. now apply Hsb.
Qed.

Lemma session_invariant_witness :
  reachable (run scenario_reconnecting init)
  /\ (isAuthenticated (run scenario_reconnecting init) = true ->
      isAuthenticating (run scenario_reconnecting init) = true -> False)
  /\ connectResolve (run scenario_reconnecting init)
     = connectReject (run scenario_reconnecting init)
  /\ sendResolve (run scenario_reconnecting init)
     = sendReject (run scenario_reconnecting init)
  /\ (forall p, connectResolve (run scenario_reconnecting init) = Some p ->
                is_Some (promises (run scenario_reconnecting init) !! p)
                /\ sendResolve (run scenario_reconnecting init) <> Some p)
  /\ (forall p, sendResolve (run scenario_reconnecting init) = Some p ->
                is_Some (promises (run scenario_reconnecting init) !! p)).
Proof.
  assert (reachable (run scenario_reconnecting init)) as H1
    by apply reachable_run.
  split; [exact H1|].
  exact (session_invariant (run scenario_reconnecting init) H1).
Defined.

Lemma alter_last (f : Socket -> Socket) (l : list Socket) (x : Socket) :
  alter f (length l) (l ++ [x]) = l ++ [f x].
Proof.
  replace (length l) with (length l + 0)%nat at 1 by lia.
  now rewrite alter_app_r.
Qed.


Lemma createPacket_AUTH password :
  fits_packet password ->
  createPacket (AUTH PACKET_TYPE) password
  = Normal (packet_layout (AUTH PACKET_TYPE) password).
Proof.
  intros Hp. apply createPacket_layout; [|assumption].
  apply (bool_decide_unpack _). vm_compute. exact I.
Qed.

Lemma createPacket_EXEC command :
  fits_packet command ->
  createPacket (EXEC_COMMAND PACKET_TYPE) command
  = Normal (packet_layout (EXEC_COMMAND PACKET_TYPE) command).
Proof.
  intros Hp. apply createPacket_layout; [|assumption].
  apply (bool_decide_unpack _). vm_compute. exact I.
Qed.

(** X10. The 'connect' event.  On an authenticated session the listener
    does nothing at all.  Otherwise it sets [isAuthenticating] and appends
    the AUTH packet of the stored password to the writes of [client]; it
    settles no promise, leaves [isAuthenticated] false and touches no other
    socket. *)
Theorem handleConnect_starts_handshake w :
  (isAuthenticated w = true -> handleConnect w = (Normal tt, w))
  /\ (forall password i s,
        isAuthenticated w = false -> rconPassword w = Some password ->
        fits_packet password -> client w = Some i -> sockets w !! i = Some s ->
        exists authPacket w',
          createPacket (AUTH PACKET_TYPE) password = Normal authPacket
          /\ handleConnect w = (Normal tt, w')
          /\ isAuthenticating w' = true
          /\ isAuthenticated w' = false
          /\ promises w' = promises w
          /\ (exists s', sockets w' !! i = Some s'
                         /\ sock_written s' = sock_written s ++ [authPacket]
                         /\ sock_destroyed s' = sock_destroyed s)
          /\ forall j, j <> i -> sockets w' !! j = sockets w !! j).
Proof.
  split.
  - intros Hw. unfold handleConnect. run_js. now rewrite Hw.
  - intros password i s Hw Hpw Hfits Hi Hs.
    exists (packet_layout (AUTH PACKET_TYPE) password).
    unfold handleConnect, client_write, on_client. run_js.
    rewrite Hw, Hpw. cbn -[packet_layout createPacket].
    change (createPacket 3 password)
      with (createPacket (AUTH PACKET_TYPE) password).
    rewrite (createPacket_AUTH password Hfits), Hi.
    cbn -[packet_layout]. eexists.
    split; [reflexivity|]. split; [reflexivity|]. fields.
    split; [reflexivity|]. split; [assumption|]. split; [reflexivity|]. split.
    + rewrite list_lookup_alter_eq, Hs. cbn. eauto.
    + intros j Hj. now apply list_lookup_alter_ne.
Qed.

Lemma handleConnect_starts_handshake_witness :
  isAuthenticated (connecting (str "127.0.0.1") 27015 (str "secret")) = false
  /\ rconPassword (connecting (str "127.0.0.1") 27015 (str "secret"))
     = Some (str "secret")
  /\ fits_packet (str "secret")
  /\ client (connecting (str "127.0.0.1") 27015 (str "secret")) = Some 0%nat
  /\ sockets (connecting (str "127.0.0.1") 27015 (str "secret")) !! 0%nat
     = Some (new_socket 27015 (str "127.0.0.1"))
  /\ exists authPacket w',
       createPacket (AUTH PACKET_TYPE) (str "secret") = Normal authPacket
       /\ handleConnect (connecting (str "127.0.0.1") 27015 (str "secret"))
          = (Normal tt, w')
       /\ isAuthenticating w' = true
       /\ isAuthenticated w' = false
       /\ promises w'
          = promises (connecting (str "127.0.0.1") 27015 (str "secret"))
       /\ (exists s', sockets w' !! 0%nat = Some s'
                      /\ sock_written s'
                         = sock_written (new_socket 27015 (str "127.0.0.1"))
                             ++ [authPacket]
                      /\ sock_destroyed s'
                         = sock_destroyed (new_socket 27015 (str "127.0.0.1")))
       /\ forall j, j <> 0%nat ->
                    sockets w' !! j
                    = sockets (connecting (str "127.0.0.1") 27015 (str "secret"))
                        !! j.
Proof.
  assert (fits_packet (str "secret")) as H3
    by (apply (bool_decide_unpack _); vm_compute; exact I).
  split; [reflexivity|]. split; [reflexivity|]. split; [exact H3|].
  split; [reflexivity|]. split; [reflexivity|].
  exact (proj2 (handleConnect_starts_handshake
                  (connecting (str "127.0.0.1") 27015 (str "secret")))
           (str "secret") 0%nat (new_socket 27015 (str "127.0.0.1"))
           eq_refl eq_refl H3 eq_refl eq_refl).
Defined.

Lemma send_authenticated_eq w command i :
  isAuthenticated w = true -> fits_packet command -> client w = Some i ->
  send command w = (Normal (length (promises w)), after_send command i w).
Proof.
  intros Hw Hfits Hi.
  unfold send, newPromise, client_write, on_client. run_js.
  change (createPacket 2 command)
    with (createPacket (EXEC_COMMAND PACKET_TYPE) command).
  rewrite Hw, (createPacket_EXEC command Hfits). cbn -[packet_layout].
  rewrite Hi. reflexivity.
Qed.

(** X11. [send] on an authenticated session with a socket: the promise
    returned is new and pending, both send variables point at it, and the
    EXEC_COMMAND packet of the command is appended to the writes of
    [client].  Nothing else changes: no promise is settled, the flags and
    the connect variables keep their values. *)
Theorem send_authenticated_writes w command i s :
  isAuthenticated w = true -> fits_packet command ->
  client w = Some i -> sockets w !! i = Some s ->
  exists commandPacket w',
    createPacket (EXEC_COMMAND PACKET_TYPE) command = Normal commandPacket
    /\ send command w = (Normal (length (promises w)), w')
    /\ promises w' = promises w ++ [Pending]
    /\ sendResolve w' = Some (length (promises w))
    /\ sendReject w' = Some (length (promises w))
    /\ (exists s', sockets w' !! i = Some s'
                   /\ sock_written s' = sock_written s ++ [commandPacket])
    /\ isAuthenticated w' = true
    /\ isAuthenticating w' = isAuthenticating w
    /\ connectResolve w' = connectResolve w
    /\ connectReject w' = connectReject w.
Proof.
  intros Hw Hfits Hi Hs.
  exists (packet_layout (EXEC_COMMAND PACKET_TYPE) command).
  unfold send, newPromise, client_write, on_client. run_js.
  change (createPacket 2 command)
    with (createPacket (EXEC_COMMAND PACKET_TYPE) command).
  rewrite Hw, (createPacket_EXEC command Hfits). cbn -[packet_layout].
  rewrite Hi. cbn -[packet_layout]. eexists.
  split; [reflexivity|]. split; [reflexivity|]. fields.
  split; [reflexivity|]. split; [reflexivity|]. split; [reflexivity|].
  split; [|repeat split; assumption].
  rewrite list_lookup_alter_eq, Hs. cbn. eauto.
Qed.

Lemma send_authenticated_writes_witness :
  isAuthenticated (run scenario_connected init) = true
  /\ fits_packet (str "status")
  /\ client (run scenario_connected init) = Some 0%nat
  /\ sockets (run scenario_connected init) !! 0%nat = Some scenario_socket
  /\ exists commandPacket w',
       createPacket (EXEC_COMMAND PACKET_TYPE) (str "status")
       = Normal commandPacket
       /\ send (str "status") (run scenario_connected init)
          = (Normal (length (promises (run scenario_connected init))), w')
       /\ promises w' = promises (run scenario_connected init) ++ [Pending]
       /\ sendResolve w'
          = Some (length (promises (run scenario_connected init)))
       /\ sendReject w'
          = Some (length (promises (run scenario_connected init)))
       /\ (exists s', sockets w' !! 0%nat = Some s'
                      /\ sock_written s'
                         = sock_written scenario_socket ++ [commandPacket])
       /\ isAuthenticated w' = true
       /\ isAuthenticating w'
          = isAuthenticating (run scenario_connected init)
       /\ connectResolve w' = connectResolve (run scenario_connected init)
       /\ connectReject w' = connectReject (run scenario_connected init).
Proof.
  assert (fits_packet (str "status")) as H2
    by (apply (bool_decide_unpack _); vm_compute; exact I).
  assert (sockets (run scenario_connected init) !! 0%nat
          = Some scenario_socket) as H4 by (vm_compute; reflexivity).
  split; [reflexivity|]. split; [exact H2|]. split; [reflexivity|].
  split; [exact H4|].
  exact (send_authenticated_writes (run scenario_connected init)
           (str "status") 0%nat scenario_socket eq_refl H2 eq_refl H4).
Defined.

(** X12. Codec and session together.  On a Ready session with a socket,
    [send(command)] followed by a 'data' event that carries the packet
    [createPacket] builds for an ASCII [answer] (of any int32 type) fulfills
    the promise [send] returned with exactly [answer]. *)
Theorem send_then_reply w command answer t i :
  isAuthenticated w = true -> isAuthenticating w = false ->
  client w = Some i -> fits_packet command ->
  is_int32 t -> is_ascii answer -> fits_packet answer ->
  exists p w1 reply w2,
    send command w = (Normal p, w1)
    /\ promises w1 !! p = Some Pending
    /\ createPacket t answer = Normal reply
    /\ handleData reply w1 = (Normal tt, w2)
    /\ promises w2 !! p = Some (Fulfilled (VString answer)).
Proof.
  intros Hw Hidle Hi Hfits Ht Hascii Hanswer.
  exists (length (promises w)), (after_send command i w),
         (packet_layout t answer).
  rewrite (send_authenticated_eq w command i Hw Hfits Hi).
  rewrite handleData_idle by exact Hidle.
  erewrite handleDataResponse_eq
    by (rewrite getPayload_layout, toString_from_ascii by assumption;
        reflexivity).
  eexists. split; [reflexivity|].
  split; [apply lookup_new_promise|].
  split; [now apply createPacket_layout|]. split; [reflexivity|].
  unfold after_send. fields. apply settle_in_pending, lookup_new_promise.
Qed.

Lemma send_then_reply_witness :
  isAuthenticated (run scenario_connected init) = true
  /\ isAuthenticating (run scenario_connected init) = false
  /\ client (run scenario_connected init) = Some 0%nat
  /\ fits_packet (str "status")
  /\ is_int32 (RESPONSE_VALUE PACKET_TYPE)
  /\ is_ascii (str "OK") /\ fits_packet (str "OK")
  /\ exists p w1 reply w2,
       send (str "status") (run scenario_connected init) = (Normal p, w1)
       /\ promises w1 !! p = Some Pending
       /\ createPacket (RESPONSE_VALUE PACKET_TYPE) (str "OK") = Normal reply
       /\ handleData reply w1 = (Normal tt, w2)
       /\ promises w2 !! p = Some (Fulfilled (VString (str "OK"))).
Proof.
  assert (fits_packet (str "status")) as H4
    by (apply (bool_decide_unpack _); vm_compute; exact I).
  assert (is_int32 (RESPONSE_VALUE PACKET_TYPE)) as H5
    by (apply (bool_decide_unpack _); vm_compute; exact I).
  assert (is_ascii (str "OK")) as H6
    by (apply (bool_decide_unpack _); vm_compute; exact I).
  assert (fits_packet (str "OK")) as H7
    by (apply (bool_decide_unpack _); vm_compute; exact I).
  split; [reflexivity|]. split; [reflexivity|]. split; [reflexivity|].
  split; [exact H4|]. split; [exact H5|]. split; [exact H6|].
  split; [exact H7|].
  exact (send_then_reply (run scenario_connected init) (str "status")
           (str "OK") (RESPONSE_VALUE PACKET_TYPE) 0%nat
           eq_refl eq_refl eq_refl H4 H5 H6 H7).
Defined.

(** X13. [disconnect] on a session that holds a socket.  The promise
    returned is new and fulfilled with no value; the socket is marked
    destroyed and keeps its writes; both flags are false.  No other promise
    is settled, so a connect or send operation that was pending stays
    pending; and [client] still holds the destroyed socket. *)
Theorem disconnect_destroys_socket w i s :
  client w = Some i -> sockets w !! i = Some s ->
  exists w',
    disconnect w = (Normal (length (promises w)), w')
    /\ promises w' = promises w ++ [Fulfilled VUndefined]
    /\ isAuthenticated w' = false
    /\ isAuthenticating w' = false
    /\ (exists s', sockets w' !! i = Some s'
                   /\ sock_destroyed s' = true
                   /\ sock_written s' = sock_written s)
    /\ client w' = Some i
    /\ connectResolve w' = connectResolve w
    /\ sendResolve w' = sendResolve w.
Proof.
  intros Hi Hs.
  unfold disconnect, newPromise, client_destroy, on_client. run_js.
  rewrite Hi. cbn -[settle_in]. eexists. split; [reflexivity|]. fields.
  split.
  - unfold settle_in. rewrite lookup_new_promise.
    replace (length (promises w)) with (length (promises w) + 0)%nat by lia.
    now rewrite insert_app_r.
  - split; [reflexivity|]. split; [reflexivity|].
    split; [|repeat split; assumption].
    rewrite list_lookup_alter_eq, Hs. cbn. eauto.
Qed.

Lemma disconnect_destroys_socket_witness :
  client (run scenario_ready init) = Some 0%nat
  /\ sockets (run scenario_ready init) !! 0%nat
     = Some (after_send_socket)
  /\ exists w',
       disconnect (run scenario_ready init)
       = (Normal (length (promises (run scenario_ready init))), w')
       /\ promises w'
          = promises (run scenario_ready init) ++ [Fulfilled VUndefined]
       /\ isAuthenticated w' = false
       /\ isAuthenticating w' = false
       /\ (exists s', sockets w' !! 0%nat = Some s'
                      /\ sock_destroyed s' = true
                      /\ sock_written s' = sock_written after_send_socket)
       /\ client w' = Some 0%nat
       /\ connectResolve w' = connectResolve (run scenario_ready init)
       /\ sendResolve w' = sendResolve (run scenario_ready init).
Proof.
  assert (sockets (run scenario_ready init) !! 0%nat = Some after_send_socket)
    as H2 by (vm_compute; reflexivity).
  split; [reflexivity|]. split; [exact H2|].
  exact (disconnect_destroys_socket (run scenario_ready init) 0%nat
           after_send_socket eq_refl H2).
Defined.

(** ** Promises over whole runs *)









Ltac keep_dropped :=
  cbn [snd]; unfold kept; split;
  [ split; fields; rewrite ?length_settle_in, ?length_app; cbn [length];
    try assumption; try lia; try congruence;
    try (intros ?; simplify_eq; lia)
  | fields;
    repeat (rewrite settle_in_other by first [congruence | lia]);
    try reflexivity; try (apply lookup_app_l; lia) ].

Lemma handleAuthResponse_dropped b w p :
  dropped p w -> kept p w (snd (handleAuthResponse b w)).
Proof.
  intros Hw. unfold handleAuthResponse. run_js.
  split_cases; destruct Hw; keep_dropped.
Qed.

Lemma handleDataResponse_dropped b w p :
  dropped p w -> kept p w (snd (handleDataResponse b w)).
Proof.
  intros Hw. unfold handleDataResponse. run_js.
  split_cases; destruct Hw; keep_dropped.
Qed.

Lemma kept_trans p w1 w2 w3 : kept p w1 w2 -> kept p w2 w3 -> kept p w1 w3.
Proof. intros [_ H12] [H3 H23]. split; [assumption|congruence]. Qed.

Lemma kept_refl p w : dropped p w -> kept p w w.
Proof. now split. Qed.

Lemma listener_dropped ev w p : dropped p w -> kept p w (snd (listener ev w)).
Proof.
  intros Hw. destruct ev as [hasError|buffer| |e]; cbn [listener].
  - unfold handleClose. run_js. split_cases; destruct Hw; keep_dropped.
  - destruct (isAuthenticating w) eqn:Hauth.
    + rewrite handleData_authenticating by assumption.
      pose proof (handleAuthResponse_dropped buffer w p Hw) as Hw'.
      destruct (handleAuthResponse buffer w) as [[[]|e] w']; cbn [snd] in *.
      * eapply kept_trans; [exact Hw'|].
        apply handleDataResponse_dropped, Hw'.
      * assumption.
    + rewrite handleData_idle by assumption.
      now apply handleDataResponse_dropped.
  - unfold handleConnect, client_write, on_client. run_js.
    split_cases; destruct Hw; keep_dropped.
  - unfold handleError. run_js. split_cases; destruct Hw; keep_dropped.
Qed.

Lemma dispatch_dropped names ev w p :
  dropped p w -> kept p w (snd (dispatch names ev w)).
Proof.
  revert w. induction names as [|n names IH]; intros w Hw;
    [now apply kept_refl|].
  cbn [dispatch]. unfold mbind, JS_bind. case_decide.
  - pose proof (listener_dropped ev w p Hw) as Hw'.
    destruct (listener ev w) as [[[]|e] w']; cbn [snd] in *; [|assumption].
    eapply kept_trans; [exact Hw'|]. apply IH, Hw'.
  - unfold mret, JS_ret. now apply IH.
Qed.

Lemma step_dropped a w p : dropped p w -> kept p w (step a w).
Proof.
  intros Hw. destruct a as [host port password|command| |i ev]; cbn [step].
  - unfold connect, newPromise, createConnection, client_on, on_client.
    run_js. destruct Hw; keep_dropped.
  - unfold send, newPromise, client_write, on_client. run_js.
    split_cases; destruct Hw; keep_dropped.
  - unfold disconnect, newPromise, client_destroy, on_client. run_js.
    split_cases; destruct Hw; keep_dropped.
  - unfold emit. destruct (sockets w !! i); [|now apply kept_refl].
    now apply dispatch_dropped.
Qed.

Lemma run_dropped trace w p : dropped p w -> kept p w (run trace w).
Proof.
  intros Hw. induction trace as [|a trace IH] using rev_ind;
    [now apply kept_refl|].
  rewrite run_snoc. eapply kept_trans; [exact IH|]. apply step_dropped, IH.
Qed.

Lemma send_drops_previous command w p :
  wf w -> sendResolve w = Some p -> kept p w (snd (send command w)).
Proof.
  intros [Hf Hc Hs Hcb Hsb Hd Hk Ha] Hp.
  assert (p < length (promises w))%nat as Hbound by now apply Hsb.
  assert (connectResolve w <> Some p) as Hcr
    by (intros Heq; now apply (Hd p Heq)).
  assert (connectReject w <> Some p) as Hcj by congruence.
  unfold send, newPromise, client_write, on_client. run_js.
  split_cases; keep_dropped.
Qed.

Lemma connect_drops_previous host port password w p :
  wf w -> connectResolve w = Some p ->
  kept p w (snd (connect host port password w)).
Proof.
  intros [Hf Hc Hs Hcb Hsb Hd Hk Ha] Hp.
  assert (p < length (promises w))%nat as Hbound by now apply Hcb.
  assert (sendResolve w <> Some p) as Hsr by now apply Hd.
  assert (sendReject w <> Some p) as Hsj by congruence.
  unfold connect, newPromise, createConnection, client_on, on_client.
  run_js. keep_dropped.
Qed.

(** X15. An operation that is started again orphans the one before it.
    After a second [send], the promise of the previous [send] keeps the
    state it had whatever is called and whatever event arrives afterwards:
    if it was pending it stays pending for ever.  The same holds for the
    promise of a [connect] after a second [connect]. *)
Theorem overwritten_operation_never_settles w p :
  reachable w ->
  (sendResolve w = Some p ->
   forall command trace,
     promises (run trace (snd (send command w))) !! p = promises w !! p)
  /\ (connectResolve w = Some p ->
      forall host port password trace,
        promises (run trace (snd (connect host port password w))) !! p
        = promises w !! p).
Proof.
  intros Hreach. pose proof (reachable_wf w Hreach) as Hwf. split.
  - intros Hp command trace.
    destruct (send_drops_previous command w p Hwf Hp) as [Hdrop Heq].
    destruct (run_dropped trace _ p Hdrop) as [_ Hrun]. congruence.
  - intros Hp host port password trace.
    destruct (connect_drops_previous host port password w p Hwf Hp)
      as [Hdrop Heq].
    destruct (run_dropped trace _ p Hdrop) as [_ Hrun]. congruence.
Qed.

Lemma overwritten_operation_never_settles_witness :
  reachable (run scenario_ready init)
  /\ sendResolve (run scenario_ready init) = Some 1%nat
  /\ promises (run scenario_ready init) !! 1%nat = Some Pending
  /\ promises (run [Event 0%nat (Data ok_answer); Event 0%nat (Close true)]
                 (snd (send (str "info") (run scenario_ready init))))
       !! 1%nat
     = promises (run scenario_ready init) !! 1%nat.
Proof.
  assert (reachable (run scenario_ready init)) as H1 by apply reachable_run.
  split; [exact H1|]. split; [reflexivity|]. split; [reflexivity|].
  exact (proj1 (overwritten_operation_never_settles
                  (run scenario_ready init) 1%nat H1)
           eq_refl (str "info")
           [Event 0%nat (Data ok_answer); Event 0%nat (Close true)]).
Defined.

(** ** The invariant of the sockets *)

Lemma wired_init : wired init.
Proof. split; cbn; intros; try congruence. constructor. Qed.

Lemma socket_ok_written (s : Socket) (b : Buffer) :
  socket_ok s -> session_packet b ->
  socket_ok {| sock_port := sock_port s; sock_host := sock_host s;
               sock_listeners := sock_listeners s;
               sock_written := sock_written s ++ [b];
               sock_destroyed := sock_destroyed s |}.
Proof.
  intros [Hl Hw] Hb. split; [exact Hl|]. cbn.
  apply Forall_app_2; [exact Hw|]. now repeat constructor.
Qed.

Lemma socket_ok_destroyed (s : Socket) :
  socket_ok s ->
  socket_ok {| sock_port := sock_port s; sock_host := sock_host s;
               sock_listeners := sock_listeners s;
               sock_written := sock_written s; sock_destroyed := true |}.
Proof. intros [Hl Hw]. now split. Qed.

Lemma session_packet_AUTH (payload : jsstring) b :
  createPacket 3 payload = Normal b -> session_packet b.
Proof. intros Hb. exists 3, payload. split; [now left|exact Hb]. Qed.

Lemma session_packet_EXEC (payload : jsstring) b :
  createPacket 2 payload = Normal b -> session_packet b.
Proof. intros Hb. exists 2, payload. split; [now right|exact Hb]. Qed.

Ltac wired_fields :=
  split; fields;
  rewrite ?length_alter, ?length_app, ?alter_eq_nil; cbn [length];
  [ first [ assumption
          | apply Forall_alter; [assumption|];
            intros ? _ ?;
            first [ apply socket_ok_destroyed; assumption
                  | apply socket_ok_written;
                    [assumption
                    | first [ eapply session_packet_AUTH; eassumption
                            | eapply session_packet_EXEC; eassumption ]]] ]
  | intros; repeat match goal with
                   | H : Some _ = Some _ |- _ => injection H as H; subst
                   end;
    try congruence; try lia; eauto
  | intros; try congruence; eauto
  | intros; try congruence; eauto using snoc_ne_nil ].

Ltac plugged_fields :=
  cbn [snd]; split;
  [ wired_fields | fields; rewrite ?alter_eq_nil; auto using snoc_ne_nil ].

Lemma handleAuthResponse_plugged b w :
  plugged w -> plugged (snd (handleAuthResponse b w)).
Proof.
  intros [Hw Hsock]. unfold handleAuthResponse. run_js.
  split_cases; destruct Hw as [Hso Hcl Hne Hau]; plugged_fields.
Qed.

Lemma handleDataResponse_plugged b w :
  plugged w -> plugged (snd (handleDataResponse b w)).
Proof.
  intros [Hw Hsock]. unfold handleDataResponse. run_js.
  split_cases; destruct Hw as [Hso Hcl Hne Hau]; plugged_fields.
Qed.

Lemma listener_plugged ev w : plugged w -> plugged (snd (listener ev w)).
Proof.
  intros Hw. destruct ev as [hasError|buffer| |e]; cbn [listener].
  - destruct Hw as [Hw Hsock]. unfold handleClose. run_js.
    split_cases; destruct Hw as [Hso Hcl Hne Hau]; plugged_fields.
  - destruct (isAuthenticating w) eqn:Hauth.
    + rewrite handleData_authenticating by assumption.
      pose proof (handleAuthResponse_plugged buffer w Hw) as Hw'.
      destruct (handleAuthResponse buffer w) as [[[]|e] w']; cbn [snd] in *.
      * now apply handleDataResponse_plugged.
      * assumption.
    + rewrite handleData_idle by assumption.
      now apply handleDataResponse_plugged.
  - destruct Hw as [Hw Hsock].
    unfold handleConnect, client_write, on_client. run_js.
    split_cases; destruct Hw as [Hso Hcl Hne Hau]; plugged_fields.
  - destruct Hw as [Hw Hsock]. unfold handleError. run_js.
    split_cases; destruct Hw as [Hso Hcl Hne Hau]; plugged_fields.
Qed.

Lemma dispatch_plugged names ev w :
  plugged w -> plugged (snd (dispatch names ev w)).
Proof.
  revert w. induction names as [|n names IH]; intros w Hw; [exact Hw|].
  cbn [dispatch]. unfold mbind, JS_bind. case_decide.
  - pose proof (listener_plugged ev w Hw) as Hw'.
    destruct (listener ev w) as [[[]|e] w']; cbn [snd] in *; auto.
  - unfold mret, JS_ret. auto.
Qed.

Lemma step_wired a w : wired w -> wired (step a w).
Proof.
  intros Hw. destruct a as [host port password|command| |i ev]; cbn [step].
  - unfold connect, newPromise, createConnection, client_on, on_client.
    run_js. destruct Hw as [Hso Hcl Hne Hau].
    split; fields; rewrite ?alter_last, ?length_app; cbn [length].
    + apply Forall_app_2; [assumption|]. repeat constructor.
    + intros i Hi. injection Hi as <-. lia.
    + eauto.
    + intros _. apply snoc_ne_nil.
  - unfold send, newPromise, client_write, on_client. run_js.
    split_cases; destruct Hw as [Hso Hcl Hne Hau]; cbn [snd]; wired_fields.
  - unfold disconnect, newPromise, client_destroy, on_client. run_js.
    split_cases; destruct Hw as [Hso Hcl Hne Hau]; cbn [snd]; wired_fields.
  - unfold emit. destruct (sockets w !! i) as [s|] eqn:Hs; [|exact Hw].
    apply dispatch_plugged. split; [assumption|].
    intros Hnil. rewrite Hnil in Hs. discriminate.
Qed.

Lemma reachable_wired w : reachable w -> wired w.
Proof.
  induction 1 as [|a w _ IH]; [apply wired_init | now apply step_wired].
Qed.

Lemma send_unauthenticated_rejects w command :
  isAuthenticated w = false ->
  exists w',
    send command w = (Normal (length (promises w)), w')
    /\ promises w' !! length (promises w)
       = Some (Rejected (VString (str "RCON client not authenticated"))).
Proof.
  intros Hw.
  pose proof (settle_in_pending (length (promises w))
                (Rejected (VString (str "RCON client not authenticated")))
                _ (lookup_new_promise (promises w))) as Hrejected.
  unfold send, newPromise, client_write, on_client. run_js. rewrite Hw.
  cbn -[str settle_in createPacket].
  destruct (createPacket 2 command) as [packet|e];
    [destruct (client w) as [i|]|]; cbn -[str settle_in];
    eexists; (split; [reflexivity|]); fields;
    first [ exact Hrejected
          | eapply settle_in_settled; [exact Hrejected|discriminate] ].
Qed.

(** X16. After [disconnect], [send] rejects.  On every reachable session,
    connected or not, authenticated or not, a [send] that follows a
    [disconnect] returns a promise rejected with
    "RCON client not authenticated", whatever the command. *)
Theorem disconnect_then_send_rejects w command :
  reachable w ->
  exists p w',
    send command (snd (disconnect w)) = (Normal p, w')
    /\ promises w' !! p
       = Some (Rejected (VString (str "RCON client not authenticated"))).
Proof.
  intros Hreach. pose proof (reachable_wired w Hreach) as [Hso Hcl Hne Hau].
  assert (isAuthenticated (snd (disconnect w)) = false) as Hoff.
  { unfold disconnect, newPromise, client_destroy, on_client. run_js.
    destruct (client w) as [i|] eqn:Hi; cbn [snd]; fields; [reflexivity|].
    destruct (isAuthenticated w) eqn:Hauth; [|reflexivity].
    destruct (Hne (Hau eq_refl)) as [? ?]. discriminate. }
  destruct (send_unauthenticated_rejects _ command Hoff) as (w' & Hsend & Hp).
  eauto.
Qed.

Lemma disconnect_then_send_rejects_witness :
  reachable (run scenario_ready init)
  /\ exists p w',
       send (str "status") (snd (disconnect (run scenario_ready init)))
       = (Normal p, w')
       /\ promises w' !! p
          = Some (Rejected (VString (str "RCON client not authenticated"))).
Proof.
  assert (reachable (run scenario_ready init)) as H1 by apply reachable_run.
  split; [exact H1|].
  exact (disconnect_then_send_rejects (run scenario_ready init)
           (str "status") H1).
Defined.

(** X17. What the session writes.  In every reachable world, every buffer
    written to any socket is a packet [createPacket] returned for the type
    AUTH or the type EXEC_COMMAND; so it holds bytes only and carries the id
    1337. *)
Theorem session_writes_only_packets w i s b :
  reachable w -> sockets w !! i = Some s -> b ∈ sock_written s ->
  (exists t payload,
     (t = AUTH PACKET_TYPE \/ t = EXEC_COMMAND PACKET_TYPE)
     /\ createPacket t payload = Normal b)
  /\ is_bytes b
  /\ getId b = Normal packetId.
Proof.
  intros Hreach Hs Hb.
  pose proof (reachable_wired w Hreach) as [Hso _ _ _].
  destruct (Forall_lookup_1 _ _ _ _ Hso Hs) as [_ Hwritten].
  rewrite Forall_lookup in Hwritten.
  apply list_elem_of_lookup in Hb as [k Hk].
  destruct (Hwritten k b Hk) as (t & payload & Ht & Hpacket).
  split; [exists t, payload; now split|].
  split; [now apply (createPacket_bytes t payload)|].
  destruct (decide (is_int32 t /\ fits_packet payload)) as [[Ht32 Hfits]|Hn].
  - rewrite createPacket_layout in Hpacket by assumption.
    injection Hpacket as <-. apply getId_layout.
  - rewrite createPacket_throws in Hpacket by assumption. discriminate.
Qed.

Lemma session_writes_only_packets_witness :
  reachable (run scenario_ready init)
  /\ sockets (run scenario_ready init) !! 0%nat = Some after_send_socket
  /\ packet_layout (EXEC_COMMAND PACKET_TYPE) (str "status")
       ∈ sock_written after_send_socket
  /\ (exists t payload,
        (t = AUTH PACKET_TYPE \/ t = EXEC_COMMAND PACKET_TYPE)
        /\ createPacket t payload
           = Normal (packet_layout (EXEC_COMMAND PACKET_TYPE) (str "status")))
  /\ is_bytes (packet_layout (EXEC_COMMAND PACKET_TYPE) (str "status"))
  /\ getId (packet_layout (EXEC_COMMAND PACKET_TYPE) (str "status"))
     = Normal packetId.
Proof.
  assert (reachable (run scenario_ready init)) as H1 by apply reachable_run.
  assert (sockets (run scenario_ready init) !! 0%nat = Some after_send_socket)
    as H2 by (vm_compute; reflexivity).
  assert (packet_layout (EXEC_COMMAND PACKET_TYPE) (str "status")
            ∈ sock_written after_send_socket) as H3
    by (apply list_elem_of_further, list_elem_of_here).
  split; [exact H1|]. split; [exact H2|]. split; [exact H3|].
  exact (session_writes_only_packets (run scenario_ready init) 0%nat
           after_send_socket _ H1 H2 H3).
Defined.

(** X18. Every socket of a reachable session has one listener per event
    and no more: an event of any of its sockets, the current one or one
    left behind by an earlier [connect], runs the listener of that event
    exactly once. *)
Theorem event_runs_its_listener w i s ev :
  reachable w -> sockets w !! i = Some s ->
  sock_listeners s = [close_ev; data_ev; connect_ev; error_ev]
  /\ emit i ev w = listener ev w.
Proof.
  intros Hreach Hs.
  pose proof (reachable_wired w Hreach) as [Hso _ _ _].
  destruct (Forall_lookup_1 _ _ _ _ Hso Hs) as [Hl _].
  split; [exact Hl|]. now apply (emit_listener i ev w s).
Qed.

Lemma event_runs_its_listener_witness :
  reachable (run scenario_reconnecting init)
  /\ sockets (run scenario_reconnecting init) !! 0%nat
     = Some (destroyed_socket)
  /\ sock_listeners destroyed_socket
     = [close_ev; data_ev; connect_ev; error_ev]
  /\ emit 0%nat (Data ok_answer) (run scenario_reconnecting init)
     = listener (Data ok_answer) (run scenario_reconnecting init).
Proof.
  assert (reachable (run scenario_reconnecting init)) as H1
    by apply reachable_run.
  assert (sockets (run scenario_reconnecting init) !! 0%nat
          = Some destroyed_socket) as H2 by (vm_compute; reflexivity).
  split; [exact H1|]. split; [exact H2|].
  exact (event_runs_its_listener (run scenario_reconnecting init) 0%nat
           destroyed_socket (Data ok_answer) H1 H2).
Defined.

(** X19. The session and its transport.  In every reachable world
    [client] is [null] or a socket that exists; an authenticated or
    authenticating session has a socket in [client] and a connect promise;
    and a session whose [client] is [null] has never created a socket. *)
Theorem session_holds_its_socket w :
  reachable w ->
  (forall i, client w = Some i -> is_Some (sockets w !! i))
  /\ (isAuthenticated w = true \/ isAuthenticating w = true ->
      is_Some (client w) /\ is_Some (connectResolve w))
  /\ (client w = None -> sockets w = []).
Proof.
  intros Hreach.
  pose proof (reachable_wired w Hreach) as [Hso Hcl Hne Hau].
  pose proof (reachable_wf w Hreach) as [Hf Hc Hs Hcb Hsb Hd Hk Ha].
  split; [|split].
  - intros i Hi. apply lookup_lt_is_Some. now apply Hcl.
  - intros [H|H]; [apply Hau in H | apply Ha in H]; split; auto.
  - intros Hnone. destruct (sockets w) as [|s l] eqn:E; [reflexivity|].
    destruct Hne as [? ?]; congruence.
Qed.

Lemma session_holds_its_socket_witness :
  reachable (run scenario_reconnecting init)
  /\ (forall i, client (run scenario_reconnecting init) = Some i ->
                is_Some (sockets (run scenario_reconnecting init) !! i))
  /\ (isAuthenticated (run scenario_reconnecting init) = true
      \/ isAuthenticating (run scenario_reconnecting init) = true ->
      is_Some (client (run scenario_reconnecting init))
      /\ is_Some (connectResolve (run scenario_reconnecting init)))
  /\ (client (run scenario_reconnecting init) = None ->
      sockets (run scenario_reconnecting init) = []).
Proof.
  assert (reachable (run scenario_reconnecting init)) as H1
    by apply reachable_run.
  split; [exact H1|].
  exact (session_holds_its_socket (run scenario_reconnecting init) H1).
Defined.

Lemma getId_short b : (length b < 8)%nat -> getId b = Throw RangeError.
Proof. intros Hb. now apply (proj1 (read_field b 4)). Qed.

Lemma getPayload_short b : (length b < 4)%nat -> getPayload b = Throw RangeError.
Proof.
  intros Hb. unfold getPayload.
  replace (readInt32LE (subarray b 0 4)) with (@Throw Z RangeError);
    [reflexivity|].
  symmetry. now apply (proj1 (read_field b 0)).
Qed.

(** X20. When the 'data' listener throws.  On a reachable session the
    listener ends by a RangeError exactly on the buffers it cannot decode:
    shorter than 8 bytes while authenticating, shorter than 4 bytes when a
    send operation is recorded.  On every other buffer it returns; and with
    no send operation recorded and no handshake under way it returns on
    every buffer, the empty one included. *)
Theorem handleData_throws_iff w b :
  reachable w ->
  (fst (handleData b w) = Throw RangeError <-> undecodable w b)
  /\ (fst (handleData b w) = Normal tt <-> ~ undecodable w b).
Proof.
  intros Hreach. unfold undecodable.
  pose proof (reachable_wf w Hreach) as [Hf Hc Hs Hcb Hsb Hd Hk Ha].
  assert (forall q : nat, is_Some (Some q)) as Hsome by eauto.
  assert (~ is_Some (@None nat)) as Hnone by (intros [? ?]; discriminate).
  destruct (isAuthenticating w) eqn:Hauth.
  - destruct (Hk (Ha eq_refl)) as [c Hcr].
    rewrite handleData_authenticating by assumption.
    destruct (decide (length b < 8)%nat) as [Hshort|Hlong].
    + unfold handleAuthResponse. run_js. rewrite (getId_short b Hshort).
      cbn [fst]. intuition (try discriminate; try lia).
    + destruct (getId_defined b) as [id Hid]; [lia|].
      destruct (getPayload_defined b) as [payload Hpayload]; [lia|].
      assert (exists w', handleAuthResponse b w = (Normal tt, w')) as [w' ->].
      { destruct (decide (id = packetId)) as [->|Hne].
        - rewrite (handleAuthResponse_match b w c Hid Hcr). eauto.
        - rewrite Hc in Hcr.
          rewrite (handleAuthResponse_mismatch b w c id Hid Hne Hcr). eauto. }
      rewrite (handleDataResponse_eq _ _ payload Hpayload). cbn [fst].
      intuition (try discriminate; try lia).
  - rewrite handleData_idle by assumption.
    unfold handleDataResponse. run_js.
    destruct (sendResolve w) as [p|] eqn:Hp.
    + destruct (decide (length b < 4)%nat) as [Hshort|Hlong].
      * rewrite (getPayload_short b Hshort). cbn [fst].
        specialize (Hsome p). intuition (try discriminate; try lia).
      * destruct (getPayload_defined b) as [payload ->]; [lia|]. cbn [fst].
        intuition (try discriminate; try lia).
    + cbn [fst]. intuition (try discriminate; try lia).
Qed.

Lemma handleData_throws_iff_witness :
  reachable (run scenario_reconnecting init)
  /\ (fst (handleData [10; 0; 0; 0; 57; 5] (run scenario_reconnecting init))
      = Throw RangeError
      <-> undecodable (run scenario_reconnecting init) [10; 0; 0; 0; 57; 5])
  /\ (fst (handleData [10; 0; 0; 0; 57; 5] (run scenario_reconnecting init))
      = Normal tt
      <-> ~ undecodable (run scenario_reconnecting init) [10; 0; 0; 0; 57; 5]).
Proof.
  assert (reachable (run scenario_reconnecting init)) as H1
    by apply reachable_run.
  split; [exact H1|].
  exact (handleData_throws_iff (run scenario_reconnecting init)
           [10; 0; 0; 0; 57; 5] H1).
Defined.

Ltac keyed_fields :=
  cbn [snd]; unfold keyed in *; fields; rewrite ?alter_eq_nil;
  first [assumption | eauto].

Lemma handleAuthResponse_keyed b w :
  keyed w -> keyed (snd (handleAuthResponse b w)).
Proof.
  intros Hw. unfold handleAuthResponse. run_js. split_cases; keyed_fields.
Qed.

Lemma handleDataResponse_keyed b w :
  keyed w -> keyed (snd (handleDataResponse b w)).
Proof.
  intros Hw. unfold handleDataResponse. run_js. split_cases; keyed_fields.
Qed.

Lemma listener_keyed ev w : keyed w -> keyed (snd (listener ev w)).
Proof.
  intros Hw. destruct ev as [hasError|buffer| |e]; cbn [listener].
  - unfold handleClose. run_js. split_cases; keyed_fields.
  - destruct (isAuthenticating w) eqn:Hauth.
    + rewrite handleData_authenticating by assumption.
      pose proof (handleAuthResponse_keyed buffer w Hw) as Hw'.
      destruct (handleAuthResponse buffer w) as [[[]|e] w']; cbn [snd] in *.
      * now apply handleDataResponse_keyed.
      * assumption.
    + rewrite handleData_idle by assumption.
      now apply handleDataResponse_keyed.
  - unfold handleConnect, client_write, on_client. run_js.
    split_cases; keyed_fields.
  - unfold handleError. run_js. split_cases; keyed_fields.
Qed.

Lemma dispatch_keyed names ev w : keyed w -> keyed (snd (dispatch names ev w)).
Proof.
  revert w. induction names as [|n names IH]; intros w Hw; [exact Hw|].
  cbn [dispatch]. unfold mbind, JS_bind. case_decide.
  - pose proof (listener_keyed ev w Hw) as Hw'.
    destruct (listener ev w) as [[[]|e] w']; cbn [snd] in *; auto.
  - unfold mret, JS_ret. auto.
Qed.

Lemma step_keyed a w : keyed w -> keyed (step a w).
Proof.
  intros Hw. destruct a as [host port password|command| |i ev]; cbn [step].
  - unfold connect, newPromise, createConnection, client_on, on_client.
    run_js. keyed_fields.
  - unfold send, newPromise, client_write, on_client. run_js.
    split_cases; keyed_fields.
  - unfold disconnect, newPromise, client_destroy, on_client. run_js.
    split_cases; keyed_fields.
  - unfold emit. destruct (sockets w !! i); [|exact Hw].
    now apply dispatch_keyed.
Qed.

Lemma reachable_keyed w : reachable w -> keyed w.
Proof.
  induction 1 as [|a w _ IH]; [|now apply step_keyed].
  intros H. now contradiction H.
Qed.

(** X21. What the other listeners never do.  On a reachable session, an
    event of one of its sockets never makes the 'close' or the 'error'
    listener throw, and the 'connect' listener returns too whenever the
    stored password fits a packet: no listener ever calls [null] or a method
    of [null]. *)
Theorem listeners_return w i s :
  reachable w -> sockets w !! i = Some s ->
  (forall hasError, fst (emit i (Close hasError) w) = Normal tt)
  /\ (forall e, fst (emit i (Failed e) w) = Normal tt)
  /\ (exists password,
        rconPassword w = Some password
        /\ (fits_packet password -> fst (emit i Connected w) = Normal tt)).
Proof.
  intros Hreach Hs.
  pose proof (reachable_wf w Hreach) as [Hf Hc Hsd Hcb Hsb Hd Hk Ha].
  pose proof (reachable_wired w Hreach) as [Hso Hcl Hne Hau].
  assert (sockets w <> []) as Hsock
    by (intros Hnil; rewrite Hnil in Hs; discriminate).
  destruct (Forall_lookup_1 _ _ _ _ Hso Hs) as [Hl _].
  destruct (Hk Hsock) as [c Hcr]. destruct (Hne Hsock) as [j Hj].
  destruct (reachable_keyed w Hreach Hsock) as [password Hpw].
  split; [|split].
  - intros hasError. rewrite (emit_listener i _ w s Hs Hl). cbn [listener].
    unfold handleClose. run_js.
    destruct hasError; [destruct (sendReject w)|]; reflexivity.
  - intros e. rewrite (emit_listener i _ w s Hs Hl). cbn [listener].
    rewrite Hc in Hcr. unfold handleError. run_js.
    repeat case_decide; rewrite ?Hcr; reflexivity.
  - exists password. split; [assumption|]. intros Hfits.
    rewrite (emit_listener i _ w s Hs Hl). cbn [listener].
    unfold handleConnect, client_write, on_client. run_js.
    destruct (isAuthenticated w); [reflexivity|].
    rewrite Hpw. cbn -[createPacket].
    change (createPacket 3 password)
      with (createPacket (AUTH PACKET_TYPE) password).
    rewrite (createPacket_AUTH password Hfits), Hj. reflexivity.
Qed.

Lemma listeners_return_witness :
  reachable (run scenario_reconnecting init)
  /\ sockets (run scenario_reconnecting init) !! 0%nat = Some destroyed_socket
  /\ (forall hasError,
        fst (emit 0%nat (Close hasError) (run scenario_reconnecting init))
        = Normal tt)
  /\ (forall e,
        fst (emit 0%nat (Failed e) (run scenario_reconnecting init))
        = Normal tt)
  /\ (exists password,
        rconPassword (run scenario_reconnecting init) = Some password
        /\ (fits_packet password ->
            fst (emit 0%nat Connected (run scenario_reconnecting init))
            = Normal tt)).
Proof.
  assert (reachable (run scenario_reconnecting init)) as H1
    by apply reachable_run.
  assert (sockets (run scenario_reconnecting init) !! 0%nat
          = Some destroyed_socket) as H2 by (vm_compute; reflexivity).
  split; [exact H1|]. split; [exact H2|].
  exact (listeners_return (run scenario_reconnecting init) 0%nat
           destroyed_socket H1 H2).
Defined.
End Session.
